(** * Presence and broadcast hub of the notes application

    Shallow embedding of [backend/src/services/websocketService.ts]
    (class [WebSocketService]) together with the part of the socket.io
    transport the class talks to: transport rooms, [socket.join],
    [socket.leave] and [socket.to(room).emit].

    - [Map<string, V>] is a [gmap string V];
    - [Set<string>] is a duplicate-free list in insertion order, which is the
      order in which JavaScript iterates a [Set];
    - [Date.now()] and [Math.random()] are inputs of the handlers;
    - every handler returns the new hub together with the packets it emitted,
      each packet being a recipient socket identifier and an event. *)

From stdpp Require Import gmap strings list fin_maps pretty.

Open Scope string_scope.
Open Scope list_scope.
Open Scope Z_scope.

(** ** JavaScript values, sets and objects *)

Inductive JsVal :=
| JStr (s : string)
| JNum (n : Z)
| JBool (b : bool).

Global Instance JsVal_eq_dec : EqDecision JsVal.
Proof. solve_decision. Defined.

(** [`${v}`] for a property read that may be [undefined]. *)
Definition template (v : option JsVal) : string :=
  match v with
  | Some (JStr s) => s
  | Some (JNum n) => pretty n
  | Some (JBool true) => "true"
  | Some (JBool false) => "false"
  | None => "undefined"
  end.

(** Truthiness of an optional string, as in [if (user.noteId)]. *)
Definition truthy (v : option string) : bool :=
  match v with
  | Some s => negb (bool_decide (s = ""))
  | None => false
  end.

(** [Set.prototype.add] and [Set.prototype.delete]. *)
Definition Set_add (x : string) (s : list string) : list string :=
  if decide (x ∈ s) then s else s ++ [x].

Definition Set_delete (x : string) (s : list string) : list string :=
  filter (λ y, y ≠ x) s.

(** ** Data model *)

Record ConnectedUser := mkUser {
  socketId : string;
  userId : string;
  userName : string;
  noteId : option string;
  color : string;
  lastActivity : Z
}.

Global Instance ConnectedUser_eq_dec : EqDecision ConnectedUser.
Proof. solve_decision. Defined.

Definition set_noteId (v : option string) (u : ConnectedUser) : ConnectedUser :=
  mkUser (socketId u) (userId u) (userName u) v (color u) (lastActivity u).

Definition set_lastActivity (t : Z) (u : ConnectedUser) : ConnectedUser :=
  mkUser (socketId u) (userId u) (userName u) (noteId u) (color u) t.

(** One entry of the roster built by [getActiveUsersInNote]. *)
Record ActiveUser := mkActive {
  a_userId : string;
  a_userName : string;
  a_color : string
}.

Global Instance ActiveUser_eq_dec : EqDecision ActiveUser.
Proof. solve_decision. Defined.

Definition active_of (u : ConnectedUser) : ActiveUser :=
  mkActive (userId u) (userName u) (color u).

(** Events the hub emits, one constructor per event name. *)
Inductive Event :=
| Authenticated (c : string)
| UserJoined (uid uname c : string)
| UserLeft (uid uname : string)
| NoteUsers (roster : list ActiveUser)
| NoteUpdate (data : gmap string JsVal)
| NoteCursor (data : gmap string JsVal)
| NoteSelection (data : gmap string JsVal)
| UserTyping (data : gmap string JsVal).

Global Instance Event_eq_dec : EqDecision Event.
Proof. solve_decision. Defined.

(** A packet: the socket that receives it, and the event. *)
Definition Packet : Type := string * Event.

(** ** The socket.io transport: rooms and broadcast *)

Module SocketIO.

(** The room name [`note:${noteId}`]. *)
Definition room (nid : string) : string := "note:" +:+ nid.

(** [socket.join(room)]. *)
Definition join (sid r : string) (rooms : gmap string (list string))
  : gmap string (list string) :=
  <[r := Set_add sid (default [] (rooms !! r))]> rooms.

(** What is left of one room when [sid] goes; the adapter drops a room
    that becomes empty. *)
Definition without (sid : string) (members : list string)
  : option (list string) :=
  match Set_delete sid members with
  | [] => None
  | m :: ms => Some (m :: ms)
  end.

(** [socket.leave(room)]. *)
Definition leave (sid r : string) (rooms : gmap string (list string))
  : gmap string (list string) :=
  match rooms !! r with
  | Some members =>
      match without sid members with
      | Some members' => <[r := members']> rooms
      | None => delete r rooms
      end
  | None => rooms
  end.

(** [socket.leaveAll()], which the transport runs on a closing socket before
    it fires the [disconnect] event. *)
Definition leaveAll (sid : string) (rooms : gmap string (list string))
  : gmap string (list string) :=
  omap (without sid) rooms.

(** The sockets reached by [socket.to(room)]: the room but the sender. *)
Definition audience (sender r : string) (rooms : gmap string (list string))
  : list string :=
  filter (λ x, x ≠ sender) (default [] (rooms !! r)).

(** [socket.to(room).emit(ev)]. *)
Definition to_emit (sender r : string) (ev : Event)
    (rooms : gmap string (list string)) : list Packet :=
  (λ x, (x, ev)) <$> audience sender r rooms.

End SocketIO.

(** ** The hub *)

Record Hub := mkHub {
  connectedUsers : gmap string ConnectedUser;
  noteRooms : gmap string (list string);
  ioRooms : gmap string (list string)
}.

Definition userColors : list string :=
  [ "#FF6B6B"; "#4ECDC4"; "#45B7D1"; "#FFA07A"; "#98D8C8";
    "#F7DC6F"; "#BB8FCE"; "#85C1E2"; "#F8B739"; "#52B788" ].

(** [k] is [Math.floor(Math.random() * userColors.length)]. *)
Definition assignUserColor (k : nat) : string :=
  default "" (userColors !! k).

Definition initial : Hub := mkHub ∅ ∅ ∅.

Definition getActiveUsersInNote (h : Hub) (nid : string) : list ActiveUser :=
  let socketIds := default [] (noteRooms h !! nid) in
  foldl (λ users sid,
           match connectedUsers h !! sid with
           | Some user => users ++ [active_of user]
           | None => users
           end) [] socketIds.


Definition getConnectedUsersCount (h : Hub) : nat := size (connectedUsers h).

Definition handleAuthentication (now : Z) (k : nat) (sid uid uname : string)
    (h : Hub) : Hub * list Packet :=
  let c := assignUserColor k in
  let user := mkUser sid uid uname None c now in
  (mkHub (<[sid := user]> (connectedUsers h)) (noteRooms h) (ioRooms h),
   [(sid, Authenticated c)]).

Definition handleNoteJoin (now : Z) (sid nid : string) (h : Hub)
    : Hub * list Packet :=
  match connectedUsers h !! sid with
  | None => (h, [])
  | Some user =>
      let io := SocketIO.join sid (SocketIO.room nid) (ioRooms h) in
      let user' := set_lastActivity now (set_noteId (Some nid) user) in
      let rooms :=
        <[nid := Set_add sid (default [] (noteRooms h !! nid))]> (noteRooms h) in
      let h' := mkHub (<[sid := user']> (connectedUsers h)) rooms io in
      let activeUsers := getActiveUsersInNote h' nid in
      (h',
       SocketIO.to_emit sid (SocketIO.room nid)
         (UserJoined (userId user') (userName user') (color user')) io
       ++ [(sid, NoteUsers activeUsers)])
  end.

Definition handleNoteLeave (sid nid : string) (h : Hub) : Hub * list Packet :=
  match connectedUsers h !! sid with
  | None => (h, [])
  | Some user =>
      let io := SocketIO.leave sid (SocketIO.room nid) (ioRooms h) in
      let user' := set_noteId None user in
      let rooms := alter (Set_delete sid) nid (noteRooms h) in
      (mkHub (<[sid := user']> (connectedUsers h)) rooms io,
       SocketIO.to_emit sid (SocketIO.room nid)
         (UserLeft (userId user') (userName user')) io)
  end.

(** [{...data, userId: user.userId, userName: user.userName}]. *)
Definition stamp (user : ConnectedUser) (data : gmap string JsVal)
    : gmap string JsVal :=
  <["userName" := JStr (userName user)]>
    (<["userId" := JStr (userId user)]> data).

(** [{...data, userId, userName, color: user.color}]. *)
Definition stamp_color (user : ConnectedUser) (data : gmap string JsVal)
    : gmap string JsVal :=
  <["color" := JStr (color user)]> (stamp user data).

Definition data_room (data : gmap string JsVal) : string :=
  SocketIO.room (template (data !! "noteId")).

Definition handleNoteUpdate (now : Z) (sid : string) (data : gmap string JsVal)
    (h : Hub) : Hub * list Packet :=
  match connectedUsers h !! sid with
  | None => (h, [])
  | Some user =>
      let user' := set_lastActivity now user in
      (mkHub (<[sid := user']> (connectedUsers h)) (noteRooms h) (ioRooms h),
       SocketIO.to_emit sid (data_room data)
         (NoteUpdate (stamp user' data)) (ioRooms h))
  end.

Definition handleCursorUpdate (sid : string) (data : gmap string JsVal)
    (h : Hub) : Hub * list Packet :=
  match connectedUsers h !! sid with
  | None => (h, [])
  | Some user =>
      (h, SocketIO.to_emit sid (data_room data)
            (NoteCursor (stamp_color user data)) (ioRooms h))
  end.

Definition handleSelectionUpdate (sid : string) (data : gmap string JsVal)
    (h : Hub) : Hub * list Packet :=
  match connectedUsers h !! sid with
  | None => (h, [])
  | Some user =>
      (h, SocketIO.to_emit sid (data_room data)
            (NoteSelection (stamp_color user data)) (ioRooms h))
  end.

Definition handleTypingIndicator (sid : string) (data : gmap string JsVal)
    (h : Hub) : Hub * list Packet :=
  match connectedUsers h !! sid with
  | None => (h, [])
  | Some user =>
      (h, SocketIO.to_emit sid (data_room data)
            (UserTyping (stamp user data)) (ioRooms h))
  end.

Definition handleUserActivity (now : Z) (sid : string) (h : Hub)
    : Hub * list Packet :=
  match connectedUsers h !! sid with
  | Some user =>
      (mkHub (<[sid := set_lastActivity now user]> (connectedUsers h))
         (noteRooms h) (ioRooms h), [])
  | None => (h, [])
  end.

Definition handleDisconnect (sid : string) (h : Hub) : Hub * list Packet :=
  match connectedUsers h !! sid with
  | Some user =>
      if truthy (noteId user) then
        let nid := default "" (noteId user) in
        (mkHub (delete sid (connectedUsers h))
           (alter (Set_delete sid) nid (noteRooms h)) (ioRooms h),
         SocketIO.to_emit sid (SocketIO.room nid)
           (UserLeft (userId user) (userName user)) (ioRooms h))
      else
        (mkHub (delete sid (connectedUsers h)) (noteRooms h) (ioRooms h), [])
  | None =>
      (mkHub (delete sid (connectedUsers h)) (noteRooms h) (ioRooms h), [])
  end.

(** The test of [cleanupInactiveConnections]:
    [now - user.lastActivity > timeoutMs]. *)
Definition idle (now timeoutMs : Z) (u : ConnectedUser) : Prop :=
  now - lastActivity u > timeoutMs.

Global Instance idle_dec now timeoutMs u : Decision (idle now timeoutMs u).
Proof. unfold idle. apply _. Defined.

(** The body of the loop of [cleanupInactiveConnections], at one entry of
    [connectedUsers.entries()]. *)
Definition cleanup_entry (now timeoutMs : Z) (h : Hub)
    (entry : string * ConnectedUser) : Hub :=
  let '(sid, user) := entry in
  if bool_decide (idle now timeoutMs user) then
    let users := delete sid (connectedUsers h) in
    if truthy (noteId user) then
      mkHub users
        (alter (Set_delete sid) (default "" (noteId user)) (noteRooms h))
        (ioRooms h)
    else mkHub users (noteRooms h) (ioRooms h)
  else h.

Definition cleanupInactiveConnections (now timeoutMs : Z) (h : Hub) : Hub :=
  foldl (cleanup_entry now timeoutMs) h (map_to_list (connectedUsers h)).

(** ** Inbound events and runs of the hub *)

Inductive Op :=
| OpAuthenticate (sid uid uname : string) (k : nat) (now : Z)
| OpNoteJoin (sid nid : string) (now : Z)
| OpNoteLeave (sid nid : string)
| OpNoteUpdate (sid : string) (data : gmap string JsVal) (now : Z)
| OpNoteCursor (sid : string) (data : gmap string JsVal)
| OpNoteSelection (sid : string) (data : gmap string JsVal)
| OpUserTyping (sid : string) (data : gmap string JsVal)
| OpUserActive (sid : string) (now : Z)
| OpDisconnect (sid : string)
| OpCleanup (now timeoutMs : Z).

(** A closing socket has left all its transport rooms when its [disconnect]
    handler runs. *)
Definition on_disconnect (sid : string) (h : Hub) : Hub * list Packet :=
  handleDisconnect sid
    (mkHub (connectedUsers h) (noteRooms h) (SocketIO.leaveAll sid (ioRooms h))).

Definition step (h : Hub) (op : Op) : Hub * list Packet :=
  match op with
  | OpAuthenticate sid uid uname k now => handleAuthentication now k sid uid uname h
  | OpNoteJoin sid nid now => handleNoteJoin now sid nid h
  | OpNoteLeave sid nid => handleNoteLeave sid nid h
  | OpNoteUpdate sid data now => handleNoteUpdate now sid data h
  | OpNoteCursor sid data => handleCursorUpdate sid data h
  | OpNoteSelection sid data => handleSelectionUpdate sid data h
  | OpUserTyping sid data => handleTypingIndicator sid data h
  | OpUserActive sid now => handleUserActivity now sid h
  | OpDisconnect sid => on_disconnect sid h
  | OpCleanup now timeoutMs => (cleanupInactiveConnections now timeoutMs h, [])
  end.

(** Runs a list of inbound events, collecting the packets in order. *)
Fixpoint run (h : Hub) (ops : list Op) : Hub * list Packet :=
  match ops with
  | [] => (h, [])
  | op :: ops' =>
      let '(h1, out1) := step h op in
      let '(h2, out2) := run h1 ops' in
      (h2, out1 ++ out2)
  end.

Definition reachable (h : Hub) : Prop := ∃ ops, (run initial ops).1 = h.

(** The members of a room in the room table; an absent room has none. *)
Definition members (h : Hub) (nid : string) : list string :=
  default [] (noteRooms h !! nid).

(** The packets of [out] addressed to [sid]. *)
Definition received (sid : string) (out : list Packet) : list Event :=
  snd <$> filter (λ p, p.1 = sid) out.

Definition is_UserLeft (ev : Event) : bool :=
  match ev with UserLeft _ _ => true | _ => false end.

(** ** The four relayed collaboration events *)

Inductive RelayKind := KUpdate | KCursor | KSelection | KTyping.

(** The handler registered for each relayed event. *)
Definition relay (k : RelayKind) (now : Z) (sid : string)
    (data : gmap string JsVal) (h : Hub) : Hub * list Packet :=
  match k with
  | KUpdate => handleNoteUpdate now sid data h
  | KCursor => handleCursorUpdate sid data h
  | KSelection => handleSelectionUpdate sid data h
  | KTyping => handleTypingIndicator sid data h
  end.

(** The outbound event of each kind. *)
Definition relay_event (k : RelayKind) (payload : gmap string JsVal) : Event :=
  match k with
  | KUpdate => NoteUpdate payload
  | KCursor => NoteCursor payload
  | KSelection => NoteSelection payload
  | KTyping => UserTyping payload
  end.

(** The kinds whose handler also writes the [color] property. *)
Definition stamps_color (k : RelayKind) : bool :=
  match k with
  | KCursor | KSelection => true
  | KUpdate | KTyping => false
  end.

(** The payload each handler sends for a sender with record [u]. *)
Definition stamped (k : RelayKind) (u : ConnectedUser)
    (data : gmap string JsVal) : gmap string JsVal :=
  if stamps_color k then stamp_color u data else stamp u data.

(** ** Well-sequenced runs *)

(** An inbound event is well sequenced in a hub when an [authenticate] comes
    from a connection without a record, a [note:join] names a room with a
    non-empty identifier and comes from a connection whose current room is
    unset, and a [note:leave] names the current room of its connection or
    comes from a connection whose current room is unset.
    Events of a connection without a record are always well sequenced: the
    handlers ignore them. *)
Definition well_sequenced (h : Hub) (op : Op) : bool :=
  match op with
  | OpAuthenticate sid _ _ _ _ => bool_decide (connectedUsers h !! sid = None)
  | OpNoteJoin sid nid _ =>
      negb (bool_decide (nid = ""))
      && match connectedUsers h !! sid with
         | Some u => bool_decide (noteId u = None)
         | None => true
         end
  | OpNoteLeave sid nid =>
      match connectedUsers h !! sid with
      | Some u => bool_decide (noteId u = None ∨ noteId u = Some nid)
      | None => true
      end
  | _ => true
  end.

Fixpoint well_sequenced_run (h : Hub) (ops : list Op) : bool :=
  match ops with
  | [] => true
  | op :: ops' => well_sequenced h op && well_sequenced_run (step h op).1 ops'
  end.

(** Every member of a room has a record whose current room is that room. *)
Definition consistent (h : Hub) : Prop :=
  ∀ nid sid, sid ∈ members h nid →
    ∃ u, connectedUsers h !! sid = Some u ∧ noteId u = Some nid ∧ nid ≠ "".

(** ** Scenarios used as concrete inputs *)

Module Scenario.

(** A and B are authenticated and both in "doc1". *)
Definition pair_in_doc1 : Hub :=
  (run initial
     [ OpAuthenticate "A" "alice" "Alice" 0 0;
       OpAuthenticate "B" "bob" "Bob" 1 0;
       OpNoteJoin "A" "doc1" 1;
       OpNoteJoin "B" "doc1" 2 ]).1.

(** A and B are in "doc1", C is in "doc2". *)
Definition two_rooms : Hub :=
  (run pair_in_doc1
     [ OpAuthenticate "C" "carol" "Carol" 2 3;
       OpNoteJoin "C" "doc2" 4 ]).1.

(** M1 and M2 are in "doc1"; C is authenticated and in no room. *)
Definition before_join : Hub :=
  (run initial
     [ OpAuthenticate "M1" "u1" "One" 0 0;
       OpAuthenticate "M2" "u2" "Two" 1 0;
       OpAuthenticate "C" "u3" "Three" 2 0;
       OpNoteJoin "M1" "doc1" 1;
       OpNoteJoin "M2" "doc1" 2 ]).1.

(** B is in "doc1"; A is authenticated and has joined no room. *)
Definition outsider : Hub :=
  (run initial
     [ OpAuthenticate "A" "alice" "Alice" 0 0;
       OpAuthenticate "B" "bob" "Bob" 1 0;
       OpNoteJoin "B" "doc1" 1 ]).1.

(** A client payload that names "doc2" and forges its identity fields. *)
Definition forged : gmap string JsVal :=
  {[ "noteId" := JStr "doc2"; "userId" := JStr "mallory";
     "userName" := JStr "Mallory"; "color" := JStr "#000000";
     "position" := JNum 42 ]}.

(** A typing payload for "doc1". *)
Definition typing_doc1 : gmap string JsVal :=
  {[ "noteId" := JStr "doc1"; "isTyping" := JBool true ]}.

End Scenario.

Module Traces.

(** A authenticates, joins "doc1" and leaves it again. *)
Definition join_then_leave : list Op :=
  [ OpAuthenticate "A" "alice" "Alice" 0 0;
    OpNoteJoin "A" "doc1" 1;
    OpNoteLeave "A" "doc1" ].


(** A and B work in "doc1"; A leaves, joins "doc2" and stays active; B
    is swept, and then its socket closes. *)
Definition orderly : list Op :=
  [ OpAuthenticate "A" "alice" "Alice" 0 0;
    OpAuthenticate "B" "bob" "Bob" 1 0;
    OpNoteJoin "A" "doc1" 1;
    OpNoteJoin "B" "doc1" 2;
    OpNoteCursor "A" Scenario.typing_doc1;
    OpNoteLeave "A" "doc1";
    OpNoteJoin "A" "doc2" 3;
    OpUserActive "A" 900;
    OpCleanup 1000 500;
    OpDisconnect "B" ].

End Traces.

(** ** Sends started by the service *)

(** [broadcastToNote]: [io.to(room).emit(event, data)] reaches the whole
    transport room.  [io_set] tells whether [this.io] has been set by
    [initialize]; [ev] stands for the event name with its data. *)
Definition broadcastToNote {E} (io_set : bool) (nid : string) (ev : E)
    (h : Hub) : list (string * E) :=
  if io_set
  then (λ x, (x, ev)) <$> default [] (ioRooms h !! SocketIO.room nid)
  else [].

(** [sendToUser]: the loop over [connectedUsers.entries()];
    [io.to(socketId)] is the room every socket holds under its own
    identifier.  The entries come in the order of [map_to_list]. *)
Definition sendToUser {E} (io_set : bool) (uid : string) (ev : E) (h : Hub)
    : list (string * E) :=
  if io_set
  then foldl (λ out entry,
                if decide (userId entry.2 = uid)
                then out ++ [(entry.1, ev)] else out)
         [] (map_to_list (connectedUsers h))
  else [].

(** ** Transport rooms against the room table *)

(** The sockets in the transport room of a note. *)
Definition listeners (h : Hub) (nid : string) : list string :=
  default [] (ioRooms h !! SocketIO.room nid).

(** Every member of a room of the table is in the note's transport room. *)
Definition synced (h : Hub) : Prop :=
  ∀ nid sid, sid ∈ members h nid → sid ∈ listeners h nid.

(** Every socket of a note's transport room is in the room of the table. *)
Definition heard_by_members_only (h : Hub) : Prop :=
  ∀ nid sid, sid ∈ listeners h nid → sid ∈ members h nid.

(** No set of the two room maps lists a socket twice. *)
Definition duplicate_free (h : Hub) : Prop :=
  (∀ nid, NoDup (members h nid)) ∧ (∀ r, NoDup (default [] (ioRooms h !! r))).

Definition is_cleanup (op : Op) : bool :=
  match op with OpCleanup _ _ => true | _ => false end.

(** The run holds no idle sweep. *)
Definition sweep_free (ops : list Op) : bool :=
  forallb (λ op, negb (is_cleanup op)) ops.

Definition authenticates (sid : string) (op : Op) : bool :=
  match op with
  | OpAuthenticate sid' _ _ _ _ => bool_decide (sid' = sid)
  | _ => false
  end.

(** The run holds no [authenticate] of [sid]. *)
Definition keeps_identity (sid : string) (ops : list Op) : bool :=
  forallb (λ op, negb (authenticates sid op)) ops.

(** The colour index of an [authenticate] is below the palette's length, as
    [Math.floor(Math.random() * 10)] is. *)
Definition palette_index (op : Op) : bool :=
  match op with
  | OpAuthenticate _ _ _ k _ => bool_decide (k < length userColors)%nat
  | _ => true
  end.

(** The identity a record shows to other connections. *)
Definition identity (u : ConnectedUser) : string * string * string :=
  (userId u, userName u, color u).

(** A connection whose current room is set is in that room's member set and
    in its transport room. *)
Definition current_room_joined (h : Hub) : Prop :=
  ∀ sid u nid, connectedUsers h !! sid = Some u → noteId u = Some nid →
    sid ∈ members h nid ∧ sid ∈ listeners h nid.

(** ** Runs used as concrete inputs *)

Module Runs.

(** A and B authenticate and both join "doc1". *)
Definition pair : list Op :=
  [ OpAuthenticate "A" "alice" "Alice" 0 0;
    OpAuthenticate "B" "bob" "Bob" 1 0;
    OpNoteJoin "A" "doc1" 1;
    OpNoteJoin "B" "doc1" 2 ].

(** A and B join "doc1", C authenticates and joins nothing. *)
Definition pair_and_guest : list Op :=
  pair ++ [ OpAuthenticate "C" "carol" "Carol" 2 3 ].

(** A and B join "doc1"; then A sends a cursor event, leaves, and B sends a
    content update. *)
Definition session : list Op :=
  pair ++ [ OpNoteCursor "A" Scenario.typing_doc1;
            OpNoteLeave "A" "doc1";
            OpNoteUpdate "B" Scenario.typing_doc1 7 ].

(** A second connection of the user "alice". *)
Definition two_devices : list Op :=
  pair ++ [ OpAuthenticate "A2" "alice" "Alice" 3 5 ].

End Runs.

(** ** Sets as duplicate-free lists *)

Section js_sets.
Implicit Types (x y : string) (s : list string).

Lemma elem_of_Set_add x y s : y ∈ Set_add x s ↔ y = x ∨ y ∈ s.
Proof.
  unfold Set_add. case_decide as Hx.
  - split; [auto | intros [-> | ?]; done].
  - rewrite elem_of_app, list_elem_of_singleton. tauto.
Qed.

Lemma elem_of_Set_delete x y s : y ∈ Set_delete x s ↔ y ≠ x ∧ y ∈ s.
Proof. unfold Set_delete. by rewrite list_elem_of_filter. Qed.

Lemma Set_delete_absent x s : x ∉ s → Set_delete x s = s.
Proof.
  unfold Set_delete. induction s as [|a s IH]; intros Hx; [done|].
  apply not_elem_of_cons in Hx as [Hne Hs].
  rewrite filter_cons_True by congruence. f_equal. auto.
Qed.

Lemma Set_delete_idemp x s : Set_delete x (Set_delete x s) = Set_delete x s.
Proof.
  apply Set_delete_absent. rewrite elem_of_Set_delete. tauto.
Qed.

Lemma Set_add_fresh x s : x ∉ s → Set_add x s = s ++ [x].
Proof. intros Hx. unfold Set_add. by rewrite decide_False. Qed.

Lemma NoDup_Set_add x s : NoDup s → NoDup (Set_add x s).
Proof.
  intros Hs. unfold Set_add. case_decide as Hx; [done|].
  apply NoDup_app. split_and!; [done | | apply NoDup_singleton].
  intros y Hy ->%list_elem_of_singleton. done.
Qed.

Lemma NoDup_Set_delete x s : NoDup s → NoDup (Set_delete x s).
Proof. apply NoDup_filter. Qed.
End js_sets.

(** ** The transport *)

Section transport.
Implicit Types (rooms : gmap string (list string)) (sid r : string).

Lemma without_idemp sid (l : list string) :
  SocketIO.without sid l ≫= SocketIO.without sid = SocketIO.without sid l.
Proof.
  unfold SocketIO.without.
  destruct (Set_delete sid l) as [|m ms] eqn:E; simpl; [done|].
  rewrite <- E. fold (Set_delete sid (Set_delete sid l)).
  by rewrite Set_delete_idemp, E.
Qed.

Lemma leaveAll_idemp sid rooms :
  SocketIO.leaveAll sid (SocketIO.leaveAll sid rooms)
  = SocketIO.leaveAll sid rooms.
Proof.
  apply map_eq. intros r. unfold SocketIO.leaveAll.
  rewrite !lookup_omap. destruct (rooms !! r) as [l|]; simpl; [|done].
  apply without_idemp.
Qed.

Lemma elem_of_audience sender r rooms x :
  x ∈ SocketIO.audience sender r rooms
  ↔ x ≠ sender ∧ x ∈ default [] (rooms !! r).
Proof. unfold SocketIO.audience. by rewrite list_elem_of_filter. Qed.

Lemma audience_not_sender sender r rooms :
  sender ∉ SocketIO.audience sender r rooms.
Proof. rewrite elem_of_audience. tauto. Qed.

(** Leaving a room does not change whom a broadcast from the leaver
    reaches. *)
Lemma audience_leave sid r rooms :
  SocketIO.audience sid r (SocketIO.leave sid r rooms)
  = SocketIO.audience sid r rooms.
Proof.
  unfold SocketIO.audience, SocketIO.leave.
  destruct (rooms !! r) as [l|] eqn:Hr; [|by rewrite Hr].
  unfold SocketIO.without.
  destruct (Set_delete sid l) as [|m ms] eqn:E.
  - rewrite lookup_delete_eq. simpl. symmetry. exact E.
  - rewrite lookup_insert_eq. simpl. rewrite <- E.
    fold (Set_delete sid (Set_delete sid l)). apply Set_delete_idemp.
Qed.

Lemma to_emit_recipients sender r ev rooms :
  (SocketIO.to_emit sender r ev rooms).*1 = SocketIO.audience sender r rooms.
Proof.
  unfold SocketIO.to_emit. rewrite <- list_fmap_compose.
  apply list_fmap_id.
Qed.

Lemma elem_of_to_emit sender r ev rooms (p : Packet) :
  p ∈ SocketIO.to_emit sender r ev rooms
  ↔ p.2 = ev ∧ p.1 ∈ SocketIO.audience sender r rooms.
Proof.
  unfold SocketIO.to_emit. rewrite list_elem_of_fmap. split.
  - intros (x & -> & Hx). done.
  - intros [He Hp]. exists p.1. split; [|done]. destruct p; simpl in *.
    by subst.
Qed.

Lemma received_none sid (out : list Packet) :
  sid ∉ out.*1 → received sid out = [].
Proof.
  unfold received. induction out as [|p out IH]; intros Hn; [done|].
  rewrite fmap_cons in Hn. apply not_elem_of_cons in Hn as [Hne Hn].
  rewrite filter_cons_False by (simpl; congruence). auto.
Qed.

Lemma received_to_emit_sender sender r ev rooms :
  received sender (SocketIO.to_emit sender r ev rooms) = [].
Proof.
  apply received_none. rewrite to_emit_recipients.
  apply audience_not_sender.
Qed.
End transport.

(** ** The presence roster *)

Section roster.
Implicit Types (h : Hub) (nid sid : string).

(** The loop of [getActiveUsersInNote], started from any accumulator. *)
Lemma roster_loop (users : gmap string ConnectedUser) (ids : list string)
    (acc : list ActiveUser) :
  foldl (λ acc sid,
           match users !! sid with
           | Some user => acc ++ [active_of user]
           | None => acc
           end) acc ids
  = acc ++ omap (λ sid, active_of <$> users !! sid) ids.
Proof.
  revert acc. induction ids as [|sid ids IH]; intros acc; simpl.
  - by rewrite app_nil_r.
  - rewrite IH. destruct (users !! sid) as [u|]; simpl; [|done].
    by rewrite <- app_assoc.
Qed.

Lemma getActiveUsersInNote_omap h nid :
  getActiveUsersInNote h nid
  = omap (λ sid, active_of <$> connectedUsers h !! sid) (members h nid).
Proof. unfold getActiveUsersInNote, members. by rewrite roster_loop. Qed.


End roster.



(** ** Disconnect *)

Section disconnect.
Implicit Types (h : Hub) (sid : string).

Lemma handleDisconnect_users sid h :
  connectedUsers (handleDisconnect sid h).1 = delete sid (connectedUsers h).
Proof.
  unfold handleDisconnect.
  destruct (connectedUsers h !! sid) as [u|]; [|done].
  by destruct (truthy (noteId u)).
Qed.

Lemma handleDisconnect_ioRooms sid h :
  ioRooms (handleDisconnect sid h).1 = ioRooms h.
Proof.
  unfold handleDisconnect.
  destruct (connectedUsers h !! sid) as [u|]; [|done].
  by destruct (truthy (noteId u)).
Qed.

(** Without a record there is nothing to clean up. *)
Lemma handleDisconnect_unknown sid h :
  connectedUsers h !! sid = None → handleDisconnect sid h = (h, []).
Proof.
  intros Hn. unfold handleDisconnect. rewrite Hn.
  rewrite delete_id by done. by destruct h.
Qed.

Lemma handleDisconnect_forgets sid h :
  connectedUsers (handleDisconnect sid h).1 !! sid = None.
Proof. rewrite handleDisconnect_users. apply lookup_delete_eq. Qed.
End disconnect.

(** C9: disconnect is idempotent.  For every hub and every connection, a
    second run of the disconnect handler right after the first one changes no
    state and sends no packet, both for [handleDisconnect] alone and for the
    handler preceded by the transport's room cleanup; so two disconnects in
    succession remove from the tables and notify exactly as one does. *)
Theorem C9_disconnect_idempotent (h : Hub) (sid : string) :
  handleDisconnect sid (handleDisconnect sid h).1
    = ((handleDisconnect sid h).1, [])
  ∧ on_disconnect sid (on_disconnect sid h).1 = ((on_disconnect sid h).1, [])
  ∧ run h [OpDisconnect sid; OpDisconnect sid] = run h [OpDisconnect sid].
Proof.
  assert (∀ h', handleDisconnect sid (handleDisconnect sid h').1
                = ((handleDisconnect sid h').1, [])) as Hd.
  { intros h'. apply handleDisconnect_unknown, handleDisconnect_forgets. }
  assert (on_disconnect sid (on_disconnect sid h).1
          = ((on_disconnect sid h).1, [])) as Ho.
  { unfold on_disconnect at 1.
    set (h1 := (on_disconnect sid h).1).
    assert (connectedUsers h1 !! sid = None) as Hn
      by apply handleDisconnect_forgets.
    assert (SocketIO.leaveAll sid (ioRooms h1) = ioRooms h1) as ->.
    { unfold h1, on_disconnect. rewrite handleDisconnect_ioRooms. simpl.
      apply leaveAll_idemp. }
    rewrite handleDisconnect_unknown by done. by destruct h1. }
  split_and!; [apply Hd | apply Ho |].
  revert Ho. cbn [run step].
  destruct (on_disconnect sid h) as [h1 out1]. cbn [fst].
  intros ->. done.
Qed.

(** ** Joining a room *)

Section join.
Implicit Types (h : Hub) (sid nid : string) (now : Z).

Lemma room_inj nid1 nid2 : SocketIO.room nid1 = SocketIO.room nid2 → nid1 = nid2.
Proof.
  unfold SocketIO.room. cbv beta iota delta [String.append]. congruence.
Qed.

Lemma handleNoteJoin_unknown now sid nid h :
  connectedUsers h !! sid = None → handleNoteJoin now sid nid h = (h, []).
Proof. intros Hn. unfold handleNoteJoin. by rewrite Hn. Qed.

Lemma handleNoteJoin_members now sid nid h u nid' :
  connectedUsers h !! sid = Some u →
  members (handleNoteJoin now sid nid h).1 nid'
  = if decide (nid = nid') then Set_add sid (members h nid) else members h nid'.
Proof.
  intros Hu. unfold handleNoteJoin, members. rewrite Hu. simpl.
  rewrite lookup_insert. by case_decide.
Qed.

Lemma handleNoteJoin_users now sid nid h u :
  connectedUsers h !! sid = Some u →
  connectedUsers (handleNoteJoin now sid nid h).1
  = <[sid := set_lastActivity now (set_noteId (Some nid) u)]> (connectedUsers h).
Proof. intros Hu. unfold handleNoteJoin. by rewrite Hu. Qed.

Lemma handleNoteJoin_out now sid nid h u :
  connectedUsers h !! sid = Some u →
  (handleNoteJoin now sid nid h).2
  = SocketIO.to_emit sid (SocketIO.room nid)
      (UserJoined (userId u) (userName u) (color u))
      (ioRooms (handleNoteJoin now sid nid h).1)
    ++ [(sid, NoteUsers (getActiveUsersInNote (handleNoteJoin now sid nid h).1 nid))].
Proof. intros Hu. unfold handleNoteJoin. by rewrite Hu. Qed.

Lemma received_app sid (out1 out2 : list Packet) :
  received sid (out1 ++ out2) = received sid out1 ++ received sid out2.
Proof. unfold received. by rewrite filter_app, fmap_app. Qed.
End join.

(** C1, as the code has it: a join never leaves anything.  When a connection
    that is a member of room r1, with r1 as its current room, joins another
    room r2, the member set of r1 is unchanged and still contains the
    connection, its transport room for r1 is unchanged, no member-left packet
    is sent to anyone, the connection is added to the member set of r2 and its
    current-room field becomes r2: afterwards it is a member of both rooms. *)
Theorem C1_join_keeps_previous_room (h : Hub) (now : Z) (sid r1 r2 : string)
    (u : ConnectedUser) :
  connectedUsers h !! sid = Some u →
  noteId u = Some r1 →
  sid ∈ members h r1 →
  r2 ≠ r1 →
  members (handleNoteJoin now sid r2 h).1 r1 = members h r1
  ∧ sid ∈ members (handleNoteJoin now sid r2 h).1 r1
  ∧ sid ∈ members (handleNoteJoin now sid r2 h).1 r2
  ∧ ioRooms (handleNoteJoin now sid r2 h).1 !! SocketIO.room r1
    = ioRooms h !! SocketIO.room r1
  ∧ noteId <$> connectedUsers (handleNoteJoin now sid r2 h).1 !! sid
    = Some (Some r2)
  ∧ (∀ p, p ∈ (handleNoteJoin now sid r2 h).2 → is_UserLeft p.2 = false).
Proof.
  intros Hu Hcur Hin Hne.
  assert (members (handleNoteJoin now sid r2 h).1 r1 = members h r1) as Hsame.
  { rewrite (handleNoteJoin_members _ _ _ _ u) by done.
    by rewrite decide_False. }
  split_and!.
  - done.
  - by rewrite Hsame.
  - rewrite (handleNoteJoin_members _ _ _ _ u) by done.
    rewrite decide_True by done. apply elem_of_Set_add. by left.
  - unfold handleNoteJoin. rewrite Hu. simpl. unfold SocketIO.join.
    apply lookup_insert_ne. intros Heq. by apply room_inj in Heq.
  - rewrite (handleNoteJoin_users _ _ _ _ u) by done.
    by rewrite lookup_insert_eq.
  - intros p. rewrite (handleNoteJoin_out _ _ _ _ u) by done.
    rewrite elem_of_app, elem_of_to_emit, list_elem_of_singleton.
    intros [[-> _] | ->]; done.
Qed.

Lemma C1_join_keeps_previous_room_witness :
  "A" ∈ members (handleNoteJoin 3 "A" "doc2" Scenario.pair_in_doc1).1 "doc1"
  ∧ "A" ∈ members (handleNoteJoin 3 "A" "doc2" Scenario.pair_in_doc1).1 "doc2".
Proof.
  pose proof (C1_join_keeps_previous_room Scenario.pair_in_doc1 3 "A" "doc1"
                "doc2" (mkUser "A" "alice" "Alice" (Some "doc1") "#FF6B6B" 1))
    as H.
  destruct H as (_ & H1 & H2 & _).
  - vm_compute. reflexivity.
  - reflexivity.
  - vm_compute. apply list_elem_of_here.
  - discriminate.
  - split; assumption.
Defined.

(** C1 fails as stated: A is in "doc1" with B and joins "doc2"; A is still
    in the member set of "doc1", and B, the remaining member of "doc1",
    receives nothing. *)
Lemma C1_counterexample :
  members Scenario.pair_in_doc1 "doc1" = ["A"; "B"]
  ∧ members (handleNoteJoin 3 "A" "doc2" Scenario.pair_in_doc1).1 "doc1"
    = ["A"; "B"]
  ∧ members (handleNoteJoin 3 "A" "doc2" Scenario.pair_in_doc1).1 "doc2"
    = ["A"]
  ∧ received "B" (handleNoteJoin 3 "A" "doc2" Scenario.pair_in_doc1).2 = [].
Proof. vm_compute. done. Qed.

Lemma omap_ext_elem {A B} (f g : A → option B) (l : list A) :
  (∀ x, x ∈ l → f x = g x) → omap f l = omap g l.
Proof.
  induction l as [|a l IH]; intros Hfg; [done|]. csimpl.
  rewrite (Hfg a) by apply list_elem_of_here.
  rewrite IH; [done|]. intros x Hx. apply Hfg. by apply list_elem_of_further.
Qed.

(** The roster sent on a join is the roster of the room before the join,
    followed by the joiner's own tuple, when the joiner was not yet a
    member. *)
Lemma join_snapshot (h : Hub) (now : Z) (sid nid : string) (u : ConnectedUser) :
  connectedUsers h !! sid = Some u →
  sid ∉ members h nid →
  received sid (handleNoteJoin now sid nid h).2
  = [NoteUsers (getActiveUsersInNote h nid ++ [active_of u])].
Proof.
  intros Hu Hfresh. rewrite (handleNoteJoin_out _ _ _ _ u) by done.
  rewrite received_app, received_to_emit_sender. simpl.
  unfold received. rewrite filter_cons_True by done. simpl.
  do 2 f_equal.
  rewrite !getActiveUsersInNote_omap.
  rewrite (handleNoteJoin_members _ _ _ _ u) by done.
  rewrite decide_True by done. rewrite Set_add_fresh by done.
  rewrite omap_app. rewrite (handleNoteJoin_users _ _ _ _ u) by done.
  f_equal.
  - apply omap_ext_elem. intros m Hm.
    rewrite lookup_insert_ne; [done|]. intros ->. done.
  - simpl. by rewrite lookup_insert_eq.
Qed.

(** C4, as the code has it: the room table is updated before the roster is
    computed, so the snapshot sent to a connection that joins a room whose
    members are exactly m1 and m2 holds the identity tuples of m1, of m2 and
    of the joining connection itself, in this order, and it is the only packet
    the joiner receives. *)
Theorem C4_snapshot_includes_joiner (h : Hub) (now : Z) (c r m1 m2 : string)
    (u u1 u2 : ConnectedUser) :
  connectedUsers h !! c = Some u →
  connectedUsers h !! m1 = Some u1 →
  connectedUsers h !! m2 = Some u2 →
  noteRooms h !! r = Some [m1; m2] →
  c ≠ m1 → c ≠ m2 →
  received c (handleNoteJoin now c r h).2
  = [NoteUsers [active_of u1; active_of u2; active_of u]].
Proof.
  intros Hu Hu1 Hu2 Hr Hc1 Hc2.
  assert (members h r = [m1; m2]) as Hm by (unfold members; by rewrite Hr).
  rewrite (join_snapshot h now c r u); [|done|].
  - rewrite getActiveUsersInNote_omap, Hm. simpl. by rewrite Hu1, Hu2.
  - rewrite Hm. rewrite !not_elem_of_cons. split_and!; [done..|].
    apply not_elem_of_nil.
Qed.

Lemma C4_snapshot_includes_joiner_witness :
  received "C" (handleNoteJoin 5 "C" "doc1" Scenario.before_join).2
  = [NoteUsers [mkActive "u1" "One" "#FF6B6B"; mkActive "u2" "Two" "#4ECDC4";
                mkActive "u3" "Three" "#45B7D1"]].
Proof.
  apply (C4_snapshot_includes_joiner Scenario.before_join 5 "C" "doc1" "M1" "M2"
           (mkUser "C" "u3" "Three" None "#45B7D1" 0)
           (mkUser "M1" "u1" "One" (Some "doc1") "#FF6B6B" 1)
           (mkUser "M2" "u2" "Two" (Some "doc1") "#4ECDC4" 2));
    solve [vm_compute; reflexivity | discriminate].
Defined.

(** C4 fails as stated: M1 and M2 are the members of "doc1" and C joins; the
    snapshot sent to C has three entries, the last one being C's own. *)
Lemma C4_counterexample :
  members Scenario.before_join "doc1" = ["M1"; "M2"]
  ∧ received "C" (handleNoteJoin 5 "C" "doc1" Scenario.before_join).2
    = [NoteUsers [mkActive "u1" "One" "#FF6B6B"; mkActive "u2" "Two" "#4ECDC4";
                  mkActive "u3" "Three" "#45B7D1"]]
  ∧ active_of (mkUser "C" "u3" "Three" None "#45B7D1" 0)
    ∈ getActiveUsersInNote
        (handleNoteJoin 5 "C" "doc1" Scenario.before_join).1 "doc1".
Proof.
  split_and!; [vm_compute; reflexivity .. |].
  vm_compute. do 2 apply list_elem_of_further. apply list_elem_of_here.
Qed.

(** ** Leaving a room *)

Section leave.
Implicit Types (h : Hub) (sid nid : string).

Lemma handleNoteLeave_unknown sid nid h :
  connectedUsers h !! sid = None → handleNoteLeave sid nid h = (h, []).
Proof. intros Hn. unfold handleNoteLeave. by rewrite Hn. Qed.

Lemma handleNoteLeave_users sid nid h u :
  connectedUsers h !! sid = Some u →
  connectedUsers (handleNoteLeave sid nid h).1
  = <[sid := set_noteId None u]> (connectedUsers h).
Proof. intros Hu. unfold handleNoteLeave. by rewrite Hu. Qed.

Lemma handleNoteLeave_rooms sid nid h u :
  connectedUsers h !! sid = Some u →
  noteRooms (handleNoteLeave sid nid h).1
  = alter (Set_delete sid) nid (noteRooms h).
Proof. intros Hu. unfold handleNoteLeave. by rewrite Hu. Qed.

Lemma handleNoteLeave_out sid nid h u :
  connectedUsers h !! sid = Some u →
  (handleNoteLeave sid nid h).2
  = (λ x, (x, UserLeft (userId u) (userName u)))
    <$> SocketIO.audience sid (SocketIO.room nid) (ioRooms h).
Proof.
  intros Hu. unfold handleNoteLeave. rewrite Hu. simpl.
  unfold SocketIO.to_emit. by rewrite audience_leave.
Qed.

Lemma members_alter_delete sid nid (rooms : gmap string (list string)) nid' :
  default [] (alter (Set_delete sid) nid rooms !! nid')
  = if decide (nid = nid') then Set_delete sid (default [] (rooms !! nid))
    else default [] (rooms !! nid').
Proof.
  rewrite lookup_alter. case_decide as Hd; [|done].
  by destruct (rooms !! nid).
Qed.

Lemma alter_delete_absent sid nid (rooms : gmap string (list string)) :
  sid ∉ default [] (rooms !! nid) → alter (Set_delete sid) nid rooms = rooms.
Proof.
  intros Hn. apply alter_id. intros l Hl. rewrite Hl in Hn.
  by apply Set_delete_absent.
Qed.
End leave.

(** C8, as the code has it: leave does not look at the member set.  When an
    authenticated connection c leaves a room r it is not a member of, the room
    table is unchanged and the records of the other connections are
    unchanged, but c's current-room field is cleared, whatever room it held,
    and a member-left packet for c is sent to every socket of r's transport
    room other than c, and to nobody else. *)
Theorem C8_leave_of_non_member (h : Hub) (c r : string) (u : ConnectedUser) :
  connectedUsers h !! c = Some u →
  c ∉ members h r →
  noteRooms (handleNoteLeave c r h).1 = noteRooms h
  ∧ connectedUsers (handleNoteLeave c r h).1
    = <[c := set_noteId None u]> (connectedUsers h)
  ∧ noteId <$> connectedUsers (handleNoteLeave c r h).1 !! c = Some None
  ∧ (handleNoteLeave c r h).2
    = (λ x, (x, UserLeft (userId u) (userName u)))
      <$> SocketIO.audience c (SocketIO.room r) (ioRooms h)
  ∧ received c (handleNoteLeave c r h).2 = [].
Proof.
  intros Hu Hn. split_and!.
  - rewrite (handleNoteLeave_rooms _ _ _ u) by done.
    by apply alter_delete_absent.
  - by apply handleNoteLeave_users.
  - rewrite (handleNoteLeave_users _ _ _ u) by done.
    by rewrite lookup_insert_eq.
  - by apply handleNoteLeave_out.
  - rewrite (handleNoteLeave_out _ _ _ u) by done.
    apply received_none. rewrite <- list_fmap_compose.
    rewrite list_fmap_id. apply audience_not_sender.
Qed.

Lemma C8_leave_of_non_member_witness :
  noteId <$> connectedUsers (handleNoteLeave "A" "doc2" Scenario.two_rooms).1 !! "A"
  = Some None
  ∧ (handleNoteLeave "A" "doc2" Scenario.two_rooms).2
    = [("C", UserLeft "alice" "Alice")].
Proof.
  pose proof (C8_leave_of_non_member Scenario.two_rooms "A" "doc2"
                (mkUser "A" "alice" "Alice" (Some "doc1") "#FF6B6B" 1))
    as H.
  destruct H as (_ & _ & H1 & H2 & _).
  - vm_compute. reflexivity.
  - apply (bool_decide_unpack _). vm_compute. exact I.
  - split; [exact H1|]. rewrite H2. vm_compute. reflexivity.
Defined.

(** C8 fails as stated: A is in "doc1" and C is the only member of "doc2";
    A leaves "doc2", of which it is not a member; A's current-room field goes
    from "doc1" to unset, and C receives a member-left packet for A. *)
Lemma C8_counterexample :
  members Scenario.two_rooms "doc2" = ["C"]
  ∧ noteId <$> connectedUsers Scenario.two_rooms !! "A" = Some (Some "doc1")
  ∧ noteId <$> connectedUsers (handleNoteLeave "A" "doc2" Scenario.two_rooms).1 !! "A"
    = Some None
  ∧ (handleNoteLeave "A" "doc2" Scenario.two_rooms).2
    = [("C", UserLeft "alice" "Alice")].
Proof. vm_compute. done. Qed.

(** ** Relaying collaboration events *)

Section relaying.
Implicit Types (h : Hub) (sid : string) (data : gmap string JsVal).

Lemma relay_unknown k now sid data h :
  connectedUsers h !! sid = None → relay k now sid data h = (h, []).
Proof.
  intros Hn. destruct k; simpl;
    unfold handleNoteUpdate, handleCursorUpdate, handleSelectionUpdate,
      handleTypingIndicator; by rewrite Hn.
Qed.

Lemma relay_out k now sid data h u :
  connectedUsers h !! sid = Some u →
  (relay k now sid data h).2
  = (λ x, (x, relay_event k (stamped k u data)))
    <$> SocketIO.audience sid (data_room data) (ioRooms h).
Proof.
  intros Hu. destruct k; simpl;
    unfold handleNoteUpdate, handleCursorUpdate, handleSelectionUpdate,
      handleTypingIndicator; by rewrite Hu.
Qed.

Lemma relay_state k now sid data h u :
  connectedUsers h !! sid = Some u →
  (relay k now sid data h).1
  = mkHub (<[sid := set_lastActivity
                      (match k with KUpdate => now | _ => lastActivity u end)
                      u]> (connectedUsers h))
      (noteRooms h) (ioRooms h).
Proof.
  intros Hu.
  assert (set_lastActivity (lastActivity u) u = u) as Hid by by destruct u.
  destruct k; simpl;
    unfold handleNoteUpdate, handleCursorUpdate, handleSelectionUpdate,
      handleTypingIndicator; rewrite Hu; [done|..];
    rewrite Hid, insert_id by done; by destruct h.
Qed.

Lemma relay_recipients k now sid data h u :
  connectedUsers h !! sid = Some u →
  (relay k now sid data h).2.*1
  = SocketIO.audience sid (data_room data) (ioRooms h).
Proof.
  intros Hu. rewrite (relay_out _ _ _ _ _ u) by done.
  rewrite <- list_fmap_compose. apply list_fmap_id.
Qed.

Lemma stamped_identity k u data :
  stamped k u data !! "userId" = Some (JStr (userId u))
  ∧ stamped k u data !! "userName" = Some (JStr (userName u)).
Proof.
  unfold stamped, stamp_color, stamp.
  destruct (stamps_color k); by simplify_map_eq.
Qed.

Lemma stamped_color k u data :
  stamped k u data !! "color"
  = if stamps_color k then Some (JStr (color u)) else data !! "color".
Proof.
  unfold stamped, stamp_color, stamp.
  destruct (stamps_color k); by simplify_map_eq.
Qed.

Lemma stamped_other k u data key :
  key ≠ "userId" → key ≠ "userName" → key ≠ "color" →
  stamped k u data !! key = data !! key.
Proof.
  intros H1 H2 H3. unfold stamped, stamp_color, stamp.
  destruct (stamps_color k); by simplify_map_eq.
Qed.
End relaying.

(** C3, as the code has it: the audience is the room named in the payload.
    For every relayed event of an authenticated connection, one and the same
    event is sent to every socket, other than the sender, of the transport
    room of the payload's [noteId], whether or not that room is the sender's
    current room, and to nobody else; its payload is the client's payload with
    [userId] and [userName] (and, for cursor and selection events, [color])
    replaced by the sender's registered values, every other property being
    the client's. *)
Theorem C3_relay_stamps_identity (k : RelayKind) (now : Z) (sid : string)
    (data : gmap string JsVal) (h : Hub) (u : ConnectedUser) :
  connectedUsers h !! sid = Some u →
  ∃ payload : gmap string JsVal,
    (relay k now sid data h).2
    = (λ x, (x, relay_event k payload))
      <$> SocketIO.audience sid (data_room data) (ioRooms h)
    ∧ payload !! "userId" = Some (JStr (userId u))
    ∧ payload !! "userName" = Some (JStr (userName u))
    ∧ payload !! "color"
      = (if stamps_color k then Some (JStr (color u)) else data !! "color")
    ∧ (∀ key, key ≠ "userId" → key ≠ "userName" → key ≠ "color" →
         payload !! key = data !! key)
    ∧ (∀ x, x ∈ (relay k now sid data h).2.*1
            ↔ x ≠ sid ∧ x ∈ default [] (ioRooms h !! data_room data))
    ∧ received sid (relay k now sid data h).2 = [].
Proof.
  intros Hu. exists (stamped k u data). split_and!.
  - by apply relay_out.
  - apply (stamped_identity k u data).
  - apply (stamped_identity k u data).
  - apply stamped_color.
  - apply stamped_other.
  - intros x. rewrite (relay_recipients _ _ _ _ _ u) by done.
    apply elem_of_audience.
  - apply received_none. rewrite (relay_recipients _ _ _ _ _ u) by done.
    apply audience_not_sender.
Qed.

Lemma C3_relay_stamps_identity_witness :
  ∃ payload : gmap string JsVal,
    (relay KCursor 9 "A" Scenario.forged Scenario.two_rooms).2
    = [("C", NoteCursor payload)]
    ∧ payload !! "userId" = Some (JStr "alice")
    ∧ payload !! "position" = Some (JNum 42).
Proof.
  destruct (C3_relay_stamps_identity KCursor 9 "A" Scenario.forged
              Scenario.two_rooms
              (mkUser "A" "alice" "Alice" (Some "doc1") "#FF6B6B" 1))
    as (payload & Hout & Hid & _ & _ & Hother & _).
  - vm_compute. reflexivity.
  - exists payload. split_and!.
    + rewrite Hout. vm_compute. reflexivity.
    + exact Hid.
    + rewrite Hother by discriminate. vm_compute. reflexivity.
Defined.

(** C3 fails as stated: A and B are in "doc1", which is A's current room,
    and C is in "doc2"; A sends a cursor event whose payload names "doc2";
    B, the other member of the sender's current room, receives nothing, and
    C receives the event. *)
Lemma C3_counterexample :
  noteId <$> connectedUsers Scenario.two_rooms !! "A" = Some (Some "doc1")
  ∧ members Scenario.two_rooms "doc1" = ["A"; "B"]
  ∧ received "B" (relay KCursor 9 "A" Scenario.forged Scenario.two_rooms).2 = []
  ∧ (relay KCursor 9 "A" Scenario.forged Scenario.two_rooms).2.*1 = ["C"].
Proof. vm_compute. done. Qed.

(** C5, as the code has it: only a connection without a record is ignored.
    A relay call of a connection that has no record in the connection table
    sends nothing and changes nothing.  A relay call of an authenticated
    connection is sent to every other socket of the transport room named in
    the payload, whatever the sender's current-room field and whether or not
    the sender is a member of that room; nothing is sent back to the sender,
    and the hub is unchanged but for the sender's last-activity timestamp,
    which a content update sets. *)
Theorem C5_relay_drops_only_unknown (k : RelayKind) (now : Z) (sid : string)
    (data : gmap string JsVal) (h : Hub) :
  (connectedUsers h !! sid = None → relay k now sid data h = (h, []))
  ∧ (∀ u, connectedUsers h !! sid = Some u →
       (relay k now sid data h).2.*1
         = SocketIO.audience sid (data_room data) (ioRooms h)
       ∧ received sid (relay k now sid data h).2 = []
       ∧ noteRooms (relay k now sid data h).1 = noteRooms h
       ∧ ioRooms (relay k now sid data h).1 = ioRooms h
       ∧ (∃ t, connectedUsers (relay k now sid data h).1
               = <[sid := set_lastActivity t u]> (connectedUsers h))).
Proof.
  split; [apply relay_unknown|]. intros u Hu. split_and!.
  - by apply (relay_recipients _ _ _ _ _ u).
  - apply received_none. rewrite (relay_recipients _ _ _ _ _ u) by done.
    apply audience_not_sender.
  - by rewrite (relay_state _ _ _ _ _ u).
  - by rewrite (relay_state _ _ _ _ _ u).
  - eexists. by rewrite (relay_state _ _ _ _ _ u).
Qed.

Lemma C5_relay_drops_only_unknown_witness :
  relay KTyping 9 "Z" Scenario.typing_doc1 Scenario.outsider
  = (Scenario.outsider, [])
  ∧ (relay KTyping 9 "A" Scenario.typing_doc1 Scenario.outsider).2.*1 = ["B"].
Proof.
  destruct (C5_relay_drops_only_unknown KTyping 9 "Z" Scenario.typing_doc1
              Scenario.outsider) as [H1 _].
  destruct (C5_relay_drops_only_unknown KTyping 9 "A" Scenario.typing_doc1
              Scenario.outsider) as [_ H2].
  split.
  - apply H1. vm_compute. reflexivity.
  - destruct (H2 (mkUser "A" "alice" "Alice" None "#FF6B6B" 0)) as [-> _].
    + vm_compute. reflexivity.
    + vm_compute. reflexivity.
Defined.

(** C5 fails as stated: B is in "doc1"; A is authenticated, its current-room
    field is unset and it is a member of no room; A sends a typing event for
    "doc1", and B receives it. *)
Lemma C5_counterexample :
  noteId <$> connectedUsers Scenario.outsider !! "A" = Some None
  ∧ members Scenario.outsider "doc1" = ["B"]
  ∧ (relay KTyping 9 "A" Scenario.typing_doc1 Scenario.outsider).2
    = [("B", UserTyping
               (<["userName" := JStr "Alice"]>
                  (<["userId" := JStr "alice"]> Scenario.typing_doc1)))].
Proof. vm_compute. done. Qed.

(** ** The idle sweep *)

Section sweep.
Variables now timeoutMs : Z.
Implicit Types (h : Hub) (l : list (string * ConnectedUser)).

Local Abbreviation sweep := (foldl (cleanup_entry now timeoutMs)).

Lemma cleanup_entry_users h sid u :
  connectedUsers (cleanup_entry now timeoutMs h (sid, u))
  = if bool_decide (idle now timeoutMs u)
    then delete sid (connectedUsers h) else connectedUsers h.
Proof.
  unfold cleanup_entry, idle. case_bool_decide; [|done].
  by destruct (truthy (noteId u)).
Qed.

Lemma cleanup_entry_rooms h sid u :
  noteRooms (cleanup_entry now timeoutMs h (sid, u))
  = if bool_decide (idle now timeoutMs u) && truthy (noteId u)
    then alter (Set_delete sid) (default "" (noteId u)) (noteRooms h)
    else noteRooms h.
Proof.
  unfold cleanup_entry, idle. case_bool_decide; [|done].
  by destruct (truthy (noteId u)).
Qed.

Lemma cleanup_entry_ioRooms h e :
  ioRooms (cleanup_entry now timeoutMs h e) = ioRooms h.
Proof.
  destruct e as [sid u]. unfold cleanup_entry. case_bool_decide; [|done].
  by destruct (truthy (noteId u)).
Qed.

(** An idle entry that is the current record of its connection is cleaned
    up exactly as [handleDisconnect] cleans the tables. *)
Lemma cleanup_entry_disconnect h sid u :
  connectedUsers h !! sid = Some u →
  idle now timeoutMs u →
  cleanup_entry now timeoutMs h (sid, u) = (handleDisconnect sid h).1.
Proof.
  intros Hu Hidle. unfold cleanup_entry, handleDisconnect, idle in *.
  rewrite Hu, bool_decide_eq_true_2 by done.
  by destruct (truthy (noteId u)).
Qed.

Lemma cleanup_entry_members h e nid x :
  x ∈ members (cleanup_entry now timeoutMs h e) nid → x ∈ members h nid.
Proof.
  destruct e as [sid u]. unfold members. rewrite cleanup_entry_rooms.
  destruct (_ && _); [|done].
  rewrite members_alter_delete. case_decide as Hd; [|done].
  rewrite elem_of_Set_delete. rewrite Hd. tauto.
Qed.

Lemma sweep_ioRooms l h : ioRooms (sweep h l) = ioRooms h.
Proof.
  revert h. induction l as [|e l IH]; intros h; [done|]. cbn [foldl].
  by rewrite IH, cleanup_entry_ioRooms.
Qed.

Lemma sweep_members l h nid x :
  x ∈ members (sweep h l) nid → x ∈ members h nid.
Proof.
  revert h. induction l as [|e l IH]; intros h; [done|]. cbn [foldl].
  intros Hx. apply IH in Hx. by apply cleanup_entry_members in Hx.
Qed.

Lemma sweep_keeps_entries l h nid :
  is_Some (noteRooms h !! nid) → is_Some (noteRooms (sweep h l) !! nid).
Proof.
  revert h. induction l as [|[sid u] l IH]; intros h Hs; [done|]. cbn [foldl].
  apply IH. rewrite cleanup_entry_rooms. destruct (_ && _); [|done].
  rewrite lookup_alter. case_decide as Hd; [|done].
  rewrite Hd. by apply fmap_is_Some.
Qed.

Lemma sweep_absent l h sid :
  connectedUsers h !! sid = None → connectedUsers (sweep h l) !! sid = None.
Proof.
  revert h. induction l as [|[sid' u] l IH]; intros h Hn; [done|]. cbn [foldl].
  apply IH. rewrite cleanup_entry_users. case_bool_decide; [|done].
  rewrite lookup_delete. by case_decide.
Qed.

Lemma sweep_removes l h sid u :
  (sid, u) ∈ l → idle now timeoutMs u →
  connectedUsers (sweep h l) !! sid = None.
Proof.
  revert h. induction l as [|e l IH]; intros h Hin Hidle.
  - by apply not_elem_of_nil in Hin.
  - cbn [foldl]. apply elem_of_cons in Hin as [<- | Hin]; [|by apply IH].
    apply sweep_absent. rewrite cleanup_entry_users.
    rewrite bool_decide_eq_true_2 by done. apply lookup_delete_eq.
Qed.

Lemma sweep_spares l h sid :
  (∀ u, (sid, u) ∈ l → ¬ idle now timeoutMs u) →
  connectedUsers (sweep h l) !! sid = connectedUsers h !! sid.
Proof.
  revert h. induction l as [|[sid' u] l IH]; intros h Hl; [done|]. cbn [foldl].
  rewrite IH.
  - rewrite cleanup_entry_users. case_bool_decide as Hi; [|done].
    apply lookup_delete_ne. intros ->.
    by apply (Hl u); [apply list_elem_of_here|].
  - intros u' Hin. apply Hl. by apply list_elem_of_further.
Qed.

Lemma sweep_leaves_room l h sid u nid :
  (sid, u) ∈ l → idle now timeoutMs u →
  noteId u = Some nid → nid ≠ "" →
  sid ∉ members (sweep h l) nid.
Proof.
  revert h. induction l as [|e l IH]; intros h Hin Hidle Hroom Hne.
  - by apply not_elem_of_nil in Hin.
  - cbn [foldl]. apply elem_of_cons in Hin as [<- | Hin]; [|by apply IH].
    intros Hx. apply sweep_members in Hx. revert Hx.
    unfold members. rewrite cleanup_entry_rooms.
    rewrite bool_decide_eq_true_2 by done.
    assert (truthy (noteId u) = true) as ->.
    { rewrite Hroom. simpl. by rewrite bool_decide_eq_false_2. }
    rewrite Hroom. simpl. rewrite members_alter_delete.
    rewrite decide_True by done. rewrite elem_of_Set_delete. tauto.
Qed.
End sweep.

(** C6, as the code has it: the sweep cleans the tables and notifies nobody.
    For every connection whose last-activity age exceeds the threshold, the
    sweep deletes the record from the connection table and, when the
    connection's current room has a non-empty identifier, removes the
    connection from that room's member set; a connection whose age does not
    exceed the threshold keeps its record; the sweep sends no packet at all,
    so no member of the room receives a member-left notification, and it
    leaves the transport rooms as they are. *)
Theorem C6_sweep_cleans_silently (h : Hub) (now timeoutMs : Z) (c : string)
    (u : ConnectedUser) :
  connectedUsers h !! c = Some u →
  (now - lastActivity u > timeoutMs →
     connectedUsers (cleanupInactiveConnections now timeoutMs h) !! c = None
     ∧ ∀ r, noteId u = Some r → r ≠ "" →
         c ∉ members (cleanupInactiveConnections now timeoutMs h) r)
  ∧ (¬ now - lastActivity u > timeoutMs →
     connectedUsers (cleanupInactiveConnections now timeoutMs h) !! c = Some u)
  ∧ (step h (OpCleanup now timeoutMs)).2 = []
  ∧ ioRooms (cleanupInactiveConnections now timeoutMs h) = ioRooms h.
Proof.
  intros Hu. unfold cleanupInactiveConnections.
  assert ((c, u) ∈ map_to_list (connectedUsers h)) as Hin
    by by apply elem_of_map_to_list.
  split_and!.
  - intros Hidle. split.
    + by apply (sweep_removes now timeoutMs _ _ c u).
    + intros r Hr Hne. by apply (sweep_leaves_room now timeoutMs _ _ c u).
  - intros Hfresh. rewrite sweep_spares; [done|].
    intros u' Hu'. apply elem_of_map_to_list in Hu'.
    assert (u' = u) as -> by congruence. done.
  - done.
  - apply sweep_ioRooms.
Qed.

Lemma C6_sweep_cleans_silently_witness :
  connectedUsers (cleanupInactiveConnections 1000 998 Scenario.pair_in_doc1) !! "A"
  = None
  ∧ "A" ∉ members (cleanupInactiveConnections 1000 998 Scenario.pair_in_doc1) "doc1".
Proof.
  destruct (C6_sweep_cleans_silently Scenario.pair_in_doc1 1000 998 "A"
              (mkUser "A" "alice" "Alice" (Some "doc1") "#FF6B6B" 1))
    as (H & _).
  - vm_compute. reflexivity.
  - destruct H as [H1 H2]; [simpl; lia|].
    split; [exact H1|]. apply H2; [reflexivity | discriminate].
Defined.

(** C6 fails as stated: A and B are in "doc1", A was last active at 1 and
    B at 2; the sweep at time 1000 with threshold 998 removes A from both
    tables, and B, the remaining member, receives nothing. *)
Lemma C6_counterexample :
  connectedUsers (step Scenario.pair_in_doc1 (OpCleanup 1000 998)).1 !! "A" = None
  ∧ members (step Scenario.pair_in_doc1 (OpCleanup 1000 998)).1 "doc1" = ["B"]
  ∧ received "B" (step Scenario.pair_in_doc1 (OpCleanup 1000 998)).2 = [].
Proof. vm_compute. done. Qed.

(** ** Runs *)

Section runs.
Implicit Types (h : Hub) (op : Op) (ops : list Op).

Lemma run_cons_state h op ops :
  (run h (op :: ops)).1 = (run (step h op).1 ops).1.
Proof.
  cbn [run]. destruct (step h op) as [h1 out1]. cbn [fst].
  by destruct (run h1 ops).
Qed.

Lemma handleDisconnect_rooms sid h nid :
  noteRooms (handleDisconnect sid h).1 !! nid
  = match connectedUsers h !! sid with
    | Some u =>
        if truthy (noteId u)
        then alter (Set_delete sid) (default "" (noteId u)) (noteRooms h) !! nid
        else noteRooms h !! nid
    | None => noteRooms h !! nid
    end.
Proof.
  unfold handleDisconnect. destruct (connectedUsers h !! sid) as [u|]; [|done].
  by destruct (truthy (noteId u)).
Qed.

Lemma alter_keeps_entry (f : list string → list string) (i j : string)
    (m : gmap string (list string)) :
  is_Some (m !! j) → is_Some (alter f i m !! j).
Proof.
  intros Hs. rewrite lookup_alter. case_decide as Hd; [|done].
  rewrite Hd. by apply fmap_is_Some.
Qed.

Lemma step_keeps_entries h op nid :
  is_Some (noteRooms h !! nid) → is_Some (noteRooms (step h op).1 !! nid).
Proof.
  intros Hs. destruct op; cbn [step].
  - done.
  - unfold handleNoteJoin. destruct (connectedUsers h !! sid); [|done].
    cbn [fst noteRooms]. rewrite lookup_insert. by case_decide.
  - unfold handleNoteLeave. destruct (connectedUsers h !! sid); [|done].
    cbn [fst noteRooms]. by apply alter_keeps_entry.
  - unfold handleNoteUpdate. by destruct (connectedUsers h !! sid).
  - unfold handleCursorUpdate. by destruct (connectedUsers h !! sid).
  - unfold handleSelectionUpdate. by destruct (connectedUsers h !! sid).
  - unfold handleTypingIndicator. by destruct (connectedUsers h !! sid).
  - unfold handleUserActivity. by destruct (connectedUsers h !! sid).
  - unfold on_disconnect. rewrite handleDisconnect_rooms. cbn [connectedUsers noteRooms].
    destruct (connectedUsers h !! sid) as [u|]; [|done].
    destruct (truthy (noteId u)); [|done]. by apply alter_keeps_entry.
  - cbn [fst]. by apply sweep_keeps_entries.
Qed.

Lemma run_keeps_entries ops h nid :
  is_Some (noteRooms h !! nid) → is_Some (noteRooms (run h ops).1 !! nid).
Proof.
  revert h. induction ops as [|op ops IH]; intros h Hs; [done|].
  rewrite run_cons_state. by apply IH, step_keeps_entries.
Qed.
End runs.

(** C7, as the code has it: the room table only grows.  No operation removes
    an entry of the room-to-members mapping, so a room identifier that has an
    entry keeps one after every run of operations; when leave, or disconnect
    from a current room with a non-empty identifier, removes the last member
    of a room, the room's entry stays in the mapping with an empty member
    set. *)
Theorem C7_room_entries_persist (h : Hub) (nid : string) :
  (∀ ops, is_Some (noteRooms h !! nid) →
          is_Some (noteRooms (run h ops).1 !! nid))
  ∧ (∀ sid u, connectedUsers h !! sid = Some u →
              noteRooms h !! nid = Some [sid] →
              noteRooms (handleNoteLeave sid nid h).1 !! nid = Some [])
  ∧ (∀ sid u, connectedUsers h !! sid = Some u →
              noteId u = Some nid → nid ≠ "" →
              noteRooms h !! nid = Some [sid] →
              noteRooms (on_disconnect sid h).1 !! nid = Some []).
Proof.
  assert (∀ sid, Set_delete sid [sid] = []) as Hlast.
  { intros sid. unfold Set_delete. by rewrite filter_cons_False by tauto. }
  split_and!.
  - intros ops. apply run_keeps_entries.
  - intros sid u Hu Hr. rewrite (handleNoteLeave_rooms _ _ _ u) by done.
    rewrite lookup_alter, decide_True by done. rewrite Hr. simpl.
    by rewrite Hlast.
  - intros sid u Hu Hcur Hne Hr. unfold on_disconnect.
    rewrite handleDisconnect_rooms. cbn [connectedUsers noteRooms].
    rewrite Hu, Hcur. simpl. rewrite bool_decide_eq_false_2 by done. simpl.
    rewrite lookup_alter, decide_True by done. rewrite Hr. simpl.
    by rewrite Hlast.
Qed.

Lemma C7_room_entries_persist_witness :
  noteRooms (handleNoteLeave "C" "doc2" Scenario.two_rooms).1 !! "doc2" = Some []
  ∧ is_Some (noteRooms (run Scenario.two_rooms [OpDisconnect "C"]).1 !! "doc2").
Proof.
  destruct (C7_room_entries_persist Scenario.two_rooms "doc2") as (H1 & H2 & _).
  split.
  - apply (H2 "C" (mkUser "C" "carol" "Carol" (Some "doc2") "#45B7D1" 4));
      vm_compute; reflexivity.
  - apply H1. vm_compute. eauto.
Defined.

(** C7 fails as stated: after A authenticates, joins "doc1" and leaves it,
    the room table still has an entry for "doc1", with an empty member
    set. *)
Lemma C7_counterexample :
  reachable (run initial Traces.join_then_leave).1
  ∧ noteRooms (run initial Traces.join_then_leave).1 !! "doc1" = Some [].
Proof. split; [by exists Traces.join_then_leave | vm_compute; done]. Qed.

(** ** Members and records *)

Section membership.
Implicit Types (h : Hub) (sid nid : string).

Lemma consistent_initial : consistent initial.
Proof. intros nid sid Hin. by apply not_elem_of_nil in Hin. Qed.

(** The transport rooms play no part in [consistent]. *)
Lemma consistent_ioRooms users rooms io io' :
  consistent (mkHub users rooms io) → consistent (mkHub users rooms io').
Proof. done. Qed.

Lemma consistent_authentication now k sid uid uname h :
  connectedUsers h !! sid = None →
  consistent h → consistent (handleAuthentication now k sid uid uname h).1.
Proof.
  intros Hnew Hc nid x Hin. destruct (Hc nid x Hin) as (u & Hu & Hroom).
  exists u. split; [|done]. cbn. rewrite lookup_insert_ne; [done|].
  intros ->. congruence.
Qed.

Lemma consistent_join now sid nid h :
  nid ≠ "" →
  (∀ u, connectedUsers h !! sid = Some u → noteId u = None) →
  consistent h → consistent (handleNoteJoin now sid nid h).1.
Proof.
  intros Hne Hfree Hc.
  destruct (connectedUsers h !! sid) as [u|] eqn:Hu;
    [|by rewrite handleNoteJoin_unknown].
  specialize (Hfree u eq_refl). intros nid' x.
  rewrite (handleNoteJoin_members _ _ _ _ u), (handleNoteJoin_users _ _ _ _ u)
    by done.
  destruct (decide (x = sid)) as [->|Hx].
  - rewrite lookup_insert_eq. case_decide as Hd.
    + intros _. eexists. split; [done|]. by subst.
    + intros Hin. destruct (Hc nid' sid Hin) as (u' & Hu' & Hroom & _).
      congruence.
  - rewrite lookup_insert_ne by done. case_decide as Hd.
    + subst nid'. rewrite elem_of_Set_add. intros [?|Hin]; [done|].
      by apply Hc.
    + apply Hc.
Qed.

Lemma consistent_leave sid nid h :
  (∀ u, connectedUsers h !! sid = Some u →
        noteId u = None ∨ noteId u = Some nid) →
  consistent h → consistent (handleNoteLeave sid nid h).1.
Proof.
  intros Hcur Hc.
  destruct (connectedUsers h !! sid) as [u|] eqn:Hu;
    [|by rewrite handleNoteLeave_unknown].
  specialize (Hcur u eq_refl). intros nid' x. unfold members.
  rewrite (handleNoteLeave_rooms _ _ _ u), (handleNoteLeave_users _ _ _ u)
    by done.
  rewrite members_alter_delete.
  destruct (decide (x = sid)) as [->|Hx].
  - case_decide as Hd.
    + rewrite elem_of_Set_delete. tauto.
    + intros Hin. destruct (Hc nid' sid Hin) as (u' & Hu' & Hroom & _).
      destruct Hcur; congruence.
  - rewrite lookup_insert_ne by done. case_decide as Hd.
    + subst nid'. rewrite elem_of_Set_delete. intros [_ Hin]. by apply Hc.
    + apply Hc.
Qed.

(** Touching the activity stamp of a record keeps the hub consistent. *)
Lemma consistent_touch t sid u h :
  connectedUsers h !! sid = Some u →
  consistent h →
  consistent (mkHub (<[sid := set_lastActivity t u]> (connectedUsers h))
                (noteRooms h) (ioRooms h)).
Proof.
  intros Hu Hc nid x Hin. destruct (Hc nid x Hin) as (u' & Hu' & Hroom).
  cbn. destruct (decide (x = sid)) as [->|Hx].
  - rewrite lookup_insert_eq. eexists. split; [done|].
    assert (u' = u) as -> by congruence. done.
  - rewrite lookup_insert_ne by done. eauto.
Qed.

Lemma consistent_relay k now sid data h :
  consistent h → consistent (relay k now sid data h).1.
Proof.
  intros Hc. destruct (connectedUsers h !! sid) as [u|] eqn:Hu.
  - rewrite (relay_state _ _ _ _ _ u) by done. by apply consistent_touch.
  - by rewrite relay_unknown.
Qed.

Lemma consistent_activity now sid h :
  consistent h → consistent (handleUserActivity now sid h).1.
Proof.
  intros Hc. unfold handleUserActivity.
  destruct (connectedUsers h !! sid) as [u|] eqn:Hu; [|done].
  by apply consistent_touch.
Qed.

Lemma consistent_disconnect sid h :
  consistent h → consistent (handleDisconnect sid h).1.
Proof.
  intros Hc nid x. unfold members.
  rewrite handleDisconnect_rooms, handleDisconnect_users.
  destruct (connectedUsers h !! sid) as [u|] eqn:Hu.
  - destruct (noteId u) as [r|] eqn:Hr; simpl.
    + case_bool_decide as He; simpl.
      * (* the current room is the empty string: the tables keep it *)
        intros Hin. destruct (Hc nid x Hin) as (u' & Hu' & Hroom & Hne).
        exists u'. split; [|done]. rewrite lookup_delete_ne; [done|].
        intros ->. congruence.
      * rewrite members_alter_delete. case_decide as Hd.
        -- subst nid. rewrite elem_of_Set_delete. intros [Hx Hin].
           destruct (Hc r x Hin) as (u' & Hu' & Hroom).
           exists u'. by rewrite lookup_delete_ne.
        -- intros Hin. destruct (Hc nid x Hin) as (u' & Hu' & Hroom & Hne).
           exists u'. split; [|done]. rewrite lookup_delete_ne; [done|].
           intros ->. congruence.
    + intros Hin. destruct (Hc nid x Hin) as (u' & Hu' & Hroom & Hne).
      exists u'. split; [|done]. rewrite lookup_delete_ne; [done|].
      intros ->. congruence.
  - intros Hin. destruct (Hc nid x Hin) as (u' & Hu' & Hroom).
    exists u'. split; [|done]. rewrite lookup_delete_ne; [done|].
    intros ->. congruence.
Qed.

Lemma consistent_sweep now timeoutMs (l : list (string * ConnectedUser)) h :
  NoDup l.*1 →
  (∀ sid u, (sid, u) ∈ l → connectedUsers h !! sid = Some u) →
  consistent h →
  consistent (foldl (cleanup_entry now timeoutMs) h l).
Proof.
  revert h. induction l as [|[sid u] l IH]; intros h Hnd Hl Hc; [done|].
  cbn [foldl]. rewrite fmap_cons in Hnd. apply NoDup_cons in Hnd as [Hfresh Hnd].
  assert (connectedUsers h !! sid = Some u) as Hu
    by apply Hl, list_elem_of_here.
  apply IH; [done| |].
  - intros sid' u' Hin. rewrite cleanup_entry_users.
    case_bool_decide; [|by apply Hl, list_elem_of_further].
    rewrite lookup_delete_ne; [by apply Hl, list_elem_of_further|].
    intros ->. apply Hfresh. apply list_elem_of_fmap. by exists (sid', u').
  - destruct (decide (idle now timeoutMs u)) as [Hi|Hi].
    + rewrite cleanup_entry_disconnect by done. by apply consistent_disconnect.
    + unfold cleanup_entry. by rewrite bool_decide_eq_false_2.
Qed.

Lemma consistent_cleanup now timeoutMs h :
  consistent h → consistent (cleanupInactiveConnections now timeoutMs h).
Proof.
  intros Hc. unfold cleanupInactiveConnections. apply consistent_sweep.
  - apply NoDup_fst_map_to_list.
  - intros sid u. by rewrite elem_of_map_to_list.
  - done.
Qed.

Lemma consistent_step h op :
  well_sequenced h op = true → consistent h → consistent (step h op).1.
Proof.
  intros Hw Hc.
  destruct op as [sid uid uname k now | sid nid now | sid nid | sid data now
                 | sid data | sid data | sid data | sid now | sid
                 | now timeoutMs]; cbn [step well_sequenced] in *.
  - apply consistent_authentication; [|done]. by apply bool_decide_eq_true in Hw.
  - apply andb_true_iff in Hw as [Hne Hfree].
    apply negb_true_iff, bool_decide_eq_false in Hne.
    apply consistent_join; [done| |done].
    intros u Hu. rewrite Hu in Hfree. by apply bool_decide_eq_true in Hfree.
  - apply consistent_leave; [|done].
    intros u Hu. rewrite Hu in Hw. by apply bool_decide_eq_true in Hw.
  - by apply (consistent_relay KUpdate now sid data).
  - by apply (consistent_relay KCursor 0 sid data).
  - by apply (consistent_relay KSelection 0 sid data).
  - by apply (consistent_relay KTyping 0 sid data).
  - by apply consistent_activity.
  - unfold on_disconnect. apply consistent_disconnect.
    destruct h as [users rooms io]. by apply (consistent_ioRooms _ _ io).
  - by apply consistent_cleanup.
Qed.

Lemma consistent_run ops h :
  well_sequenced_run h ops = true → consistent h → consistent (run h ops).1.
Proof.
  revert h. induction ops as [|op ops IH]; intros h Hw Hc; [done|].
  cbn [well_sequenced_run] in Hw. apply andb_true_iff in Hw as [Hop Hw].
  rewrite run_cons_state. apply IH; [done|]. by apply consistent_step.
Qed.
End membership.




(** ** More on the transport rooms *)

Section transport_rooms.
Implicit Types (rooms : gmap string (list string)) (sid r : string).

Lemma join_lookup sid r rooms r' :
  default [] (SocketIO.join sid r rooms !! r')
  = if decide (r = r') then Set_add sid (default [] (rooms !! r))
    else default [] (rooms !! r').
Proof. unfold SocketIO.join. rewrite lookup_insert. by case_decide. Qed.

Lemma leave_lookup sid r rooms r' :
  default [] (SocketIO.leave sid r rooms !! r')
  = if decide (r = r') then Set_delete sid (default [] (rooms !! r))
    else default [] (rooms !! r').
Proof.
  unfold SocketIO.leave. destruct (rooms !! r) as [l|] eqn:Hr.
  - unfold SocketIO.without. destruct (Set_delete sid l) as [|m ms] eqn:E.
    + rewrite lookup_delete. case_decide; [done|]. done.
    + rewrite lookup_insert. case_decide; [done|]. done.
  - case_decide as Hd; [|done]. subst r'. by rewrite Hr.
Qed.

Lemma leaveAll_lookup sid rooms r' :
  default [] (SocketIO.leaveAll sid rooms !! r')
  = Set_delete sid (default [] (rooms !! r')).
Proof.
  unfold SocketIO.leaveAll. rewrite lookup_omap.
  destruct (rooms !! r') as [l|]; [|done]. simpl.
  unfold SocketIO.without. by destruct (Set_delete sid l).
Qed.
End transport_rooms.

(** ** What each inbound event does to the two room maps *)

Section room_maps.
Implicit Types (h : Hub) (sid nid : string).

Lemma listeners_join now sid nid h u nid' :
  connectedUsers h !! sid = Some u →
  listeners (handleNoteJoin now sid nid h).1 nid'
  = if decide (nid = nid') then Set_add sid (listeners h nid)
    else listeners h nid'.
Proof.
  intros Hu. unfold handleNoteJoin, listeners. rewrite Hu. cbn [fst ioRooms].
  rewrite join_lookup. case_decide as Hd.
  - apply room_inj in Hd. by rewrite decide_True.
  - rewrite decide_False; [done|]. intros ->. done.
Qed.

Lemma listeners_leave sid nid h u nid' :
  connectedUsers h !! sid = Some u →
  listeners (handleNoteLeave sid nid h).1 nid'
  = if decide (nid = nid') then Set_delete sid (listeners h nid)
    else listeners h nid'.
Proof.
  intros Hu. unfold handleNoteLeave, listeners. rewrite Hu. cbn [fst ioRooms].
  rewrite leave_lookup. case_decide as Hd.
  - apply room_inj in Hd. by rewrite decide_True.
  - rewrite decide_False; [done|]. intros ->. done.
Qed.

Lemma members_leave sid nid h u nid' :
  connectedUsers h !! sid = Some u →
  members (handleNoteLeave sid nid h).1 nid'
  = if decide (nid = nid') then Set_delete sid (members h nid)
    else members h nid'.
Proof.
  intros Hu. unfold members. rewrite (handleNoteLeave_rooms _ _ _ u) by done.
  apply members_alter_delete.
Qed.

Lemma ioRooms_on_disconnect sid h :
  ioRooms (on_disconnect sid h).1 = SocketIO.leaveAll sid (ioRooms h).
Proof. unfold on_disconnect. by rewrite handleDisconnect_ioRooms. Qed.

Lemma listeners_disconnect sid h nid :
  listeners (on_disconnect sid h).1 nid = Set_delete sid (listeners h nid).
Proof.
  unfold listeners. rewrite ioRooms_on_disconnect. apply leaveAll_lookup.
Qed.

Lemma users_on_disconnect sid h :
  connectedUsers (on_disconnect sid h).1 = delete sid (connectedUsers h).
Proof. unfold on_disconnect. by rewrite handleDisconnect_users. Qed.

(** The room table after a disconnect: the socket leaves its current room,
    when that room has a non-empty identifier, and no other room. *)
Lemma members_disconnect sid h nid :
  members (on_disconnect sid h).1 nid
  = match connectedUsers h !! sid with
    | Some u =>
        if truthy (noteId u) && bool_decide (noteId u = Some nid)
        then Set_delete sid (members h nid) else members h nid
    | None => members h nid
    end.
Proof.
  unfold members, on_disconnect. rewrite handleDisconnect_rooms.
  cbn [connectedUsers noteRooms].
  destruct (connectedUsers h !! sid) as [u|]; [|done].
  destruct (noteId u) as [r|]; [|done]. simpl.
  case_bool_decide as He; simpl; [done|].
  rewrite members_alter_delete. case_decide as Hd.
  - subst r. by rewrite bool_decide_eq_true_2.
  - rewrite bool_decide_eq_false_2; [done|]. congruence.
Qed.

Lemma members_disconnect_subset sid h nid x :
  x ∈ members (on_disconnect sid h).1 nid → x ∈ members h nid.
Proof.
  rewrite members_disconnect. destruct (connectedUsers h !! sid); [|done].
  destruct (_ && _); [|done]. rewrite elem_of_Set_delete. tauto.
Qed.

Lemma sweep_lookup_Some now timeoutMs (l : list (string * ConnectedUser)) h
    sid u :
  connectedUsers (foldl (cleanup_entry now timeoutMs) h l) !! sid = Some u →
  connectedUsers h !! sid = Some u.
Proof.
  revert h. induction l as [|[sid' u'] l IH]; intros h; [done|]. cbn [foldl].
  intros Hs. apply IH in Hs. revert Hs. rewrite cleanup_entry_users.
  case_bool_decide; [|done]. rewrite lookup_delete_Some. tauto.
Qed.

Lemma sweep_nodup now timeoutMs (l : list (string * ConnectedUser)) h :
  (∀ nid, NoDup (members h nid)) →
  ∀ nid, NoDup (members (foldl (cleanup_entry now timeoutMs) h l) nid).
Proof.
  revert h. induction l as [|[sid u] l IH]; intros h Hn; [done|]. cbn [foldl].
  apply IH. intros nid. unfold members. rewrite cleanup_entry_rooms.
  destruct (_ && _); [|apply Hn]. rewrite members_alter_delete.
  case_decide; [|apply Hn]. apply NoDup_Set_delete, Hn.
Qed.
End room_maps.

(** ** Invariants of the two room maps *)

Section room_invariants.
Implicit Types (h : Hub) (op : Op) (ops : list Op).

(** Authentication, the relayed events and the activity ping touch neither
    room map. *)
Lemma quiet_step h op :
  match op with
  | OpNoteJoin _ _ _ | OpNoteLeave _ _ | OpDisconnect _ | OpCleanup _ _ => True
  | _ => noteRooms (step h op).1 = noteRooms h
         ∧ ioRooms (step h op).1 = ioRooms h
  end.
Proof.
  destruct op; cbn [step]; try done;
    unfold handleNoteUpdate, handleCursorUpdate, handleSelectionUpdate,
      handleTypingIndicator, handleUserActivity;
    by destruct (connectedUsers h !! sid).
Qed.

Lemma quiet_members h h' :
  noteRooms h' = noteRooms h ∧ ioRooms h' = ioRooms h →
  (∀ nid, members h' nid = members h nid)
  ∧ (∀ nid, listeners h' nid = listeners h nid).
Proof. intros [Hr Hi]. unfold members, listeners. by rewrite Hr, Hi. Qed.

Lemma duplicate_free_initial : duplicate_free initial.
Proof. split; intros; apply NoDup_nil_2. Qed.

Lemma duplicate_free_step h op :
  duplicate_free h → duplicate_free (step h op).1.
Proof.
  intros [Hm Hl].
  assert (noteRooms (step h op).1 = noteRooms h
          ∧ ioRooms (step h op).1 = ioRooms h → duplicate_free (step h op).1)
    as Hquiet.
  { intros [Hr Hi]. split; intros k.
    - unfold members. rewrite Hr. apply Hm.
    - rewrite Hi. apply Hl. }
  pose proof (quiet_step h op) as Hq.
  destruct op as [sid uid uname k now | sid nid now | sid nid | sid data now
                 | sid data | sid data | sid data | sid now | sid
                 | now timeoutMs]; try (by apply Hquiet); cbn [step].
  - destruct (connectedUsers h !! sid) as [u|] eqn:Hu;
      [|by rewrite handleNoteJoin_unknown].
    split.
    + intros nid'. rewrite (handleNoteJoin_members _ _ _ _ u) by done.
      case_decide; [apply NoDup_Set_add|]; apply Hm.
    + intros r. unfold handleNoteJoin. rewrite Hu. cbn [fst ioRooms].
      rewrite join_lookup. case_decide; [apply NoDup_Set_add|]; apply Hl.
  - destruct (connectedUsers h !! sid) as [u|] eqn:Hu;
      [|by rewrite handleNoteLeave_unknown].
    split.
    + intros nid'. rewrite (members_leave _ _ _ u) by done.
      case_decide; [apply NoDup_Set_delete|]; apply Hm.
    + intros r. unfold handleNoteLeave. rewrite Hu. cbn [fst ioRooms].
      rewrite leave_lookup. case_decide; [apply NoDup_Set_delete|]; apply Hl.
  - split.
    + intros nid. rewrite members_disconnect.
      destruct (connectedUsers h !! sid); [|apply Hm].
      destruct (_ && _); [apply NoDup_Set_delete|]; apply Hm.
    + intros r. rewrite ioRooms_on_disconnect, leaveAll_lookup.
      apply NoDup_Set_delete, Hl.
  - split.
    + by apply sweep_nodup.
    + intros r. cbn [fst]. unfold cleanupInactiveConnections.
      rewrite sweep_ioRooms. apply Hl.
Qed.

Lemma duplicate_free_run ops h :
  duplicate_free h → duplicate_free (run h ops).1.
Proof.
  revert h. induction ops as [|op ops IH]; intros h Hd; [done|].
  rewrite run_cons_state. by apply IH, duplicate_free_step.
Qed.

Lemma synced_initial : synced initial.
Proof. intros nid sid Hin. by apply not_elem_of_nil in Hin. Qed.

(** In a consistent hub a connection with a record sits in the member set
    of its current room only. *)
Lemma consistent_only_room h sid u nid :
  consistent h → connectedUsers h !! sid = Some u →
  sid ∈ members h nid → noteId u = Some nid ∧ nid ≠ "".
Proof.
  intros Hc Hu Hin. destruct (Hc nid sid Hin) as (u' & Hu' & Hroom & Hne).
  assert (u' = u) as -> by congruence. done.
Qed.

Lemma synced_step h op :
  consistent h → synced h → synced (step h op).1.
Proof.
  intros Hc Hs.
  pose proof (quiet_step h op) as Hq.
  destruct op as [sid uid uname k now | sid nid now | sid nid | sid data now
                 | sid data | sid data | sid data | sid now | sid
                 | now timeoutMs];
    try (apply quiet_members in Hq as [Hm Hl]; intros nid' x;
         rewrite Hm, Hl; apply Hs); cbn [step]; intros nid' x.
  - destruct (connectedUsers h !! sid) as [u|] eqn:Hu;
      [|rewrite handleNoteJoin_unknown by done; apply Hs].
    rewrite (handleNoteJoin_members _ _ _ _ u),
      (listeners_join _ _ _ _ u) by done.
    case_decide; [|apply Hs]. rewrite !elem_of_Set_add.
    intros [?|Hin]; [by left | right; by apply Hs].
  - destruct (connectedUsers h !! sid) as [u|] eqn:Hu;
      [|rewrite handleNoteLeave_unknown by done; apply Hs].
    rewrite (members_leave _ _ _ u), (listeners_leave _ _ _ u) by done.
    case_decide; [|apply Hs]. rewrite !elem_of_Set_delete.
    intros [? Hin]. split; [done|]. by apply Hs.
  - rewrite listeners_disconnect, elem_of_Set_delete. intros Hin.
    assert (x ∈ members h nid') as Hold by by eapply members_disconnect_subset.
    split; [|by apply Hs]. intros ->. revert Hin.
    rewrite members_disconnect.
    destruct (connectedUsers h !! sid) as [u|] eqn:Hu.
    + destruct (consistent_only_room h sid u nid' Hc Hu Hold) as [Hroom Hne].
      rewrite Hroom. simpl. rewrite bool_decide_eq_false_2 by done.
      rewrite bool_decide_eq_true_2 by done. simpl.
      rewrite elem_of_Set_delete. tauto.
    + destruct (Hc nid' sid Hold) as (u' & Hu' & _). congruence.
  - cbn [fst]. unfold cleanupInactiveConnections, listeners.
    rewrite sweep_ioRooms. intros Hin. apply sweep_members in Hin.
    by apply Hs.
Qed.

Lemma synced_run ops h :
  well_sequenced_run h ops = true → consistent h → synced h →
  synced (run h ops).1.
Proof.
  revert h. induction ops as [|op ops IH]; intros h Hw Hc Hs; [done|].
  cbn [well_sequenced_run] in Hw. apply andb_true_iff in Hw as [Hop Hw].
  rewrite run_cons_state. apply IH; [done| |].
  - by apply consistent_step.
  - by apply synced_step.
Qed.

Lemma heard_by_members_only_step h op :
  is_cleanup op = false →
  heard_by_members_only h → heard_by_members_only (step h op).1.
Proof.
  intros Hk Hs.
  pose proof (quiet_step h op) as Hq.
  destruct op as [sid uid uname k now | sid nid now | sid nid | sid data now
                 | sid data | sid data | sid data | sid now | sid
                 | now timeoutMs];
    try (apply quiet_members in Hq as [Hm Hl]; intros nid' x;
         rewrite Hm, Hl; apply Hs); cbn [step]; try done; intros nid' x.
  - destruct (connectedUsers h !! sid) as [u|] eqn:Hu;
      [|rewrite handleNoteJoin_unknown by done; apply Hs].
    rewrite (handleNoteJoin_members _ _ _ _ u),
      (listeners_join _ _ _ _ u) by done.
    case_decide; [|apply Hs]. rewrite !elem_of_Set_add.
    intros [?|Hin]; [by left | right; by apply Hs].
  - destruct (connectedUsers h !! sid) as [u|] eqn:Hu;
      [|rewrite handleNoteLeave_unknown by done; apply Hs].
    rewrite (members_leave _ _ _ u), (listeners_leave _ _ _ u) by done.
    case_decide; [|apply Hs]. rewrite !elem_of_Set_delete.
    intros [? Hin]. split; [done|]. by apply Hs.
  - rewrite listeners_disconnect, elem_of_Set_delete. intros [Hx Hin].
    apply Hs in Hin. rewrite members_disconnect.
    destruct (connectedUsers h !! sid); [|done].
    destruct (_ && _); [|done]. by rewrite elem_of_Set_delete.
Qed.

Lemma heard_by_members_only_run ops h :
  sweep_free ops = true →
  heard_by_members_only h → heard_by_members_only (run h ops).1.
Proof.
  revert h. induction ops as [|op ops IH]; intros h Hf Hs; [done|].
  cbn [sweep_free forallb] in Hf. apply andb_true_iff in Hf as [Hop Hf].
  rewrite run_cons_state. apply IH; [done|].
  apply heard_by_members_only_step; [|done]. by apply negb_true_iff.
Qed.
End room_invariants.

(** ** Who receives a notification *)

Section audiences.
Implicit Types (h : Hub) (sid nid : string).

(** A broadcast over a duplicate-free list reaches each of its sockets with
    exactly one packet. *)
Lemma received_exactly_once sid (ev : Event) (l : list string) :
  NoDup l → sid ∈ l → received sid ((λ x, (x, ev)) <$> l) = [ev].
Proof.
  unfold received. induction l as [|a l IH]; intros Hnd Hin.
  - by apply not_elem_of_nil in Hin.
  - apply NoDup_cons in Hnd as [Ha Hnd]. csimpl.
    apply elem_of_cons in Hin as [<- | Hin].
    + rewrite filter_cons_True by done. csimpl. f_equal.
      change (received sid ((λ x, (x, ev)) <$> l) = []).
      apply received_none. rewrite <- list_fmap_compose, list_fmap_id. done.
    + rewrite filter_cons_False; [by apply IH|].
      simpl. intros ->. done.
Qed.

Lemma NoDup_audience sender r (rooms : gmap string (list string)) :
  NoDup (default [] (rooms !! r)) → NoDup (SocketIO.audience sender r rooms).
Proof. apply NoDup_filter. Qed.

(** A closing socket has left the room, which changes nothing for the
    audience of its own broadcast. *)
Lemma audience_leaveAll sid r (rooms : gmap string (list string)) :
  SocketIO.audience sid r (SocketIO.leaveAll sid rooms)
  = SocketIO.audience sid r rooms.
Proof.
  unfold SocketIO.audience. rewrite leaveAll_lookup.
  apply (Set_delete_idemp sid).
Qed.

Lemma on_disconnect_out sid h u nid :
  connectedUsers h !! sid = Some u → noteId u = Some nid → nid ≠ "" →
  (on_disconnect sid h).2
  = (λ x, (x, UserLeft (userId u) (userName u)))
    <$> SocketIO.audience sid (SocketIO.room nid) (ioRooms h).
Proof.
  intros Hu Hroom Hne. unfold on_disconnect, handleDisconnect.
  cbn [connectedUsers noteRooms ioRooms]. rewrite Hu, Hroom. simpl.
  rewrite bool_decide_eq_false_2 by done. simpl.
  unfold SocketIO.to_emit. by rewrite audience_leaveAll.
Qed.

(** In a state reached by a well-sequenced run, another member of a room is
    in the audience of a broadcast to that room. *)
Lemma member_in_audience ops sender nid m :
  well_sequenced_run initial ops = true →
  m ∈ members (run initial ops).1 nid → m ≠ sender →
  m ∈ SocketIO.audience sender (SocketIO.room nid)
        (ioRooms (run initial ops).1)
  ∧ NoDup (SocketIO.audience sender (SocketIO.room nid)
             (ioRooms (run initial ops).1)).
Proof.
  intros Hw Hin Hne. split.
  - apply elem_of_audience. split; [done|].
    by apply (synced_run ops initial Hw consistent_initial synced_initial).
  - apply NoDup_audience.
    apply (duplicate_free_run ops initial duplicate_free_initial).
Qed.
End audiences.

(** X1: in every state reached from the empty hub by a well-sequenced run,
    each member of a room of the room table is in the note's transport room,
    so that it is reached by the broadcasts to that room. *)
Theorem members_are_listeners (ops : list Op) (nid sid : string) :
  well_sequenced_run initial ops = true →
  sid ∈ members (run initial ops).1 nid →
  sid ∈ listeners (run initial ops).1 nid.
Proof.
  intros Hw. by apply (synced_run ops initial Hw consistent_initial synced_initial).
Qed.

Lemma members_are_listeners_witness :
  "B" ∈ listeners (run initial Runs.session).1 "doc1".
Proof.
  apply (members_are_listeners Runs.session "doc1" "B").
  - vm_compute. reflexivity.
  - vm_compute. apply list_elem_of_here.
Defined.

(** X2: in every state reached from the empty hub by a run without idle
    sweep, well sequenced or not, each socket of a note's transport room is a
    member of that room in the room table: a broadcast reaches recorded
    members only. *)
Theorem listeners_are_members (ops : list Op) (nid sid : string) :
  sweep_free ops = true →
  sid ∈ listeners (run initial ops).1 nid →
  sid ∈ members (run initial ops).1 nid.
Proof.
  intros Hf. apply (heard_by_members_only_run ops initial Hf).
  intros nid' x Hin. by apply not_elem_of_nil in Hin.
Qed.

Lemma listeners_are_members_witness :
  "B" ∈ members (run initial Runs.session).1 "doc1".
Proof.
  apply (listeners_are_members Runs.session "doc1" "B").
  - vm_compute. reflexivity.
  - vm_compute. apply list_elem_of_here.
Defined.

(** X3: leave notification.  In a state reached by a well-sequenced run,
    when a connection with a record leaves room r, every other member of r
    receives exactly one member-left packet carrying the leaver's userId and
    userName, and the leaver receives nothing. *)
Theorem leave_notifies_each_member_once (ops : list Op) (c r m : string)
    (u : ConnectedUser) :
  well_sequenced_run initial ops = true →
  connectedUsers (run initial ops).1 !! c = Some u →
  m ∈ members (run initial ops).1 r →
  m ≠ c →
  received m (handleNoteLeave c r (run initial ops).1).2
    = [UserLeft (userId u) (userName u)]
  ∧ received c (handleNoteLeave c r (run initial ops).1).2 = [].
Proof.
  intros Hw Hu Hin Hne.
  destruct (member_in_audience ops c r m Hw Hin Hne) as [Ha Hnd].
  rewrite (handleNoteLeave_out _ _ _ u) by done. split.
  - by apply received_exactly_once.
  - apply received_none. rewrite <- list_fmap_compose, list_fmap_id.
    apply audience_not_sender.
Qed.

Lemma leave_notifies_each_member_once_witness :
  received "B" (handleNoteLeave "A" "doc1" (run initial Runs.pair).1).2
  = [UserLeft "alice" "Alice"].
Proof.
  apply (leave_notifies_each_member_once Runs.pair "A" "doc1" "B"
           (mkUser "A" "alice" "Alice" (Some "doc1") "#FF6B6B" 1)).
  - vm_compute. reflexivity.
  - vm_compute. reflexivity.
  - vm_compute. apply list_elem_of_further, list_elem_of_here.
  - discriminate.
Defined.

(** X4: disconnect notification.  In a state reached by a well-sequenced
    run, when the socket of a connection whose current room r has a non-empty
    identifier closes, every other member of r receives exactly one
    member-left packet for it, the closing socket receives nothing, its record
    is deleted and it is no longer in the member set of r. *)
Theorem disconnect_notifies_each_member_once (ops : list Op) (c r m : string)
    (u : ConnectedUser) :
  well_sequenced_run initial ops = true →
  connectedUsers (run initial ops).1 !! c = Some u →
  noteId u = Some r → r ≠ "" →
  m ∈ members (run initial ops).1 r →
  m ≠ c →
  received m (on_disconnect c (run initial ops).1).2
    = [UserLeft (userId u) (userName u)]
  ∧ received c (on_disconnect c (run initial ops).1).2 = []
  ∧ connectedUsers (on_disconnect c (run initial ops).1).1 !! c = None
  ∧ (c ∉ members (on_disconnect c (run initial ops).1).1 r)
  ∧ m ∈ members (on_disconnect c (run initial ops).1).1 r.
Proof.
  intros Hw Hu Hroom Hr Hin Hne.
  destruct (member_in_audience ops c r m Hw Hin Hne) as [Ha Hnd].
  rewrite (on_disconnect_out _ _ u r) by done.
  assert (members (on_disconnect c (run initial ops).1).1 r
          = Set_delete c (members (run initial ops).1 r)) as Hm.
  { rewrite members_disconnect, Hu, Hroom. simpl.
    rewrite bool_decide_eq_false_2 by done.
    by rewrite bool_decide_eq_true_2. }
  split_and!.
  - by apply received_exactly_once.
  - apply received_none. rewrite <- list_fmap_compose, list_fmap_id.
    apply audience_not_sender.
  - rewrite users_on_disconnect. apply lookup_delete_eq.
  - rewrite Hm, elem_of_Set_delete. tauto.
  - rewrite Hm, elem_of_Set_delete. done.
Qed.

Lemma disconnect_notifies_each_member_once_witness :
  received "A" (on_disconnect "B" (run initial Runs.pair).1).2
  = [UserLeft "bob" "Bob"].
Proof.
  apply (disconnect_notifies_each_member_once Runs.pair "B" "doc1" "A"
           (mkUser "B" "bob" "Bob" (Some "doc1") "#4ECDC4" 2)).
  - vm_compute. reflexivity.
  - vm_compute. reflexivity.
  - reflexivity.
  - discriminate.
  - vm_compute. apply list_elem_of_here.
  - discriminate.
Defined.

(** X5: relay delivery.  In a state reached by a well-sequenced run, a
    relayed event of an authenticated connection whose payload names room r
    is received exactly once, with the sender's stamped identity, by every
    member of r other than the sender. *)
Theorem relay_reaches_each_member_once (ops : list Op) (k : RelayKind)
    (now : Z) (c r m : string) (data : gmap string JsVal) (u : ConnectedUser) :
  well_sequenced_run initial ops = true →
  connectedUsers (run initial ops).1 !! c = Some u →
  data !! "noteId" = Some (JStr r) →
  m ∈ members (run initial ops).1 r →
  m ≠ c →
  received m (relay k now c data (run initial ops).1).2
  = [relay_event k (stamped k u data)].
Proof.
  intros Hw Hu Hdata Hin Hne.
  destruct (member_in_audience ops c r m Hw Hin Hne) as [Ha Hnd].
  rewrite (relay_out _ _ _ _ _ u) by done.
  unfold data_room. rewrite Hdata. simpl.
  by apply received_exactly_once.
Qed.

Lemma relay_reaches_each_member_once_witness :
  received "B" (relay KTyping 9 "A" Scenario.typing_doc1 (run initial Runs.pair).1).2
  = [UserTyping (stamp (mkUser "A" "alice" "Alice" (Some "doc1") "#FF6B6B" 1)
                   Scenario.typing_doc1)].
Proof.
  apply (relay_reaches_each_member_once Runs.pair KTyping 9 "A" "doc1" "B"
           Scenario.typing_doc1
           (mkUser "A" "alice" "Alice" (Some "doc1") "#FF6B6B" 1)).
  - vm_compute. reflexivity.
  - vm_compute. reflexivity.
  - vm_compute. reflexivity.
  - vm_compute. apply list_elem_of_further, list_elem_of_here.
  - discriminate.
Defined.

(** ** Joining, again *)

Section joining.
Implicit Types (h : Hub) (sid nid : string).

Lemma Set_add_idemp (x : string) (s : list string) :
  Set_add x (Set_add x s) = Set_add x s.
Proof.
  unfold Set_add at 1. rewrite decide_True; [done|].
  apply elem_of_Set_add. by left.
Qed.

Lemma Set_delete_add (x : string) (s : list string) :
  Set_delete x (Set_add x s) = Set_delete x s.
Proof.
  unfold Set_add. case_decide; [done|]. unfold Set_delete.
  rewrite filter_app, filter_cons_False, filter_nil by tauto.
  apply app_nil_r.
Qed.

Lemma audience_join sid r (rooms : gmap string (list string)) :
  SocketIO.audience sid r (SocketIO.join sid r rooms)
  = SocketIO.audience sid r rooms.
Proof.
  unfold SocketIO.audience. rewrite join_lookup, decide_True by done.
  apply (Set_delete_add sid).
Qed.

Lemma ioRooms_join now sid nid h u :
  connectedUsers h !! sid = Some u →
  ioRooms (handleNoteJoin now sid nid h).1
  = SocketIO.join sid (SocketIO.room nid) (ioRooms h).
Proof. intros Hu. unfold handleNoteJoin. by rewrite Hu. Qed.

Lemma noteRooms_join now sid nid h u :
  connectedUsers h !! sid = Some u →
  noteRooms (handleNoteJoin now sid nid h).1
  = <[nid := Set_add sid (members h nid)]> (noteRooms h).
Proof. intros Hu. unfold handleNoteJoin. by rewrite Hu. Qed.

(** The packets of a join, spelled out over the hub before the join. *)
Lemma handleNoteJoin_packets now sid nid h u :
  connectedUsers h !! sid = Some u →
  (handleNoteJoin now sid nid h).2
  = ((λ x, (x, UserJoined (userId u) (userName u) (color u)))
     <$> SocketIO.audience sid (SocketIO.room nid) (ioRooms h))
    ++ [(sid, NoteUsers
                (getActiveUsersInNote (handleNoteJoin now sid nid h).1 nid))].
Proof.
  intros Hu. rewrite (handleNoteJoin_out _ _ _ _ u) by done.
  rewrite (ioRooms_join _ _ _ _ u) by done.
  unfold SocketIO.to_emit. by rewrite audience_join.
Qed.

(** The hub after a join depends on the hub before it through the record,
    the room table and the transport rooms only. *)
Lemma handleNoteJoin_state now sid nid h u :
  connectedUsers h !! sid = Some u →
  (handleNoteJoin now sid nid h).1
  = mkHub (<[sid := set_lastActivity now (set_noteId (Some nid) u)]>
             (connectedUsers h))
      (<[nid := Set_add sid (members h nid)]> (noteRooms h))
      (SocketIO.join sid (SocketIO.room nid) (ioRooms h)).
Proof. intros Hu. unfold handleNoteJoin. by rewrite Hu. Qed.
End joining.

(** X6: join notification.  In a state reached by a well-sequenced run, when
    a connection with a record joins room r, every other member of r receives
    exactly one member-joined packet carrying the joiner's userId, userName
    and colour. *)
Theorem join_notifies_each_member_once (ops : list Op) (now : Z)
    (c r m : string) (u : ConnectedUser) :
  well_sequenced_run initial ops = true →
  connectedUsers (run initial ops).1 !! c = Some u →
  m ∈ members (run initial ops).1 r →
  m ≠ c →
  received m (handleNoteJoin now c r (run initial ops).1).2
  = [UserJoined (userId u) (userName u) (color u)].
Proof.
  intros Hw Hu Hin Hne.
  destruct (member_in_audience ops c r m Hw Hin Hne) as [Ha Hnd].
  rewrite (handleNoteJoin_packets _ _ _ _ u) by done.
  rewrite received_app, received_exactly_once by done.
  rewrite (received_none m [_]); [done|].
  simpl. rewrite list_elem_of_singleton. congruence.
Qed.

Lemma join_notifies_each_member_once_witness :
  received "A" (handleNoteJoin 9 "C" "doc1" (run initial Runs.pair_and_guest).1).2
  = [UserJoined "carol" "Carol" "#45B7D1"].
Proof.
  apply (join_notifies_each_member_once Runs.pair_and_guest 9 "C" "doc1" "A"
           (mkUser "C" "carol" "Carol" None "#45B7D1" 3)).
  - vm_compute. reflexivity.
  - vm_compute. reflexivity.
  - vm_compute. apply list_elem_of_here.
  - discriminate.
Defined.

(** X7: a repeated join is absorbed.  Joining the same room again gives the
    hub, and sends the packets, of a single join at the later time: the
    connection is not listed twice in the member set or in the transport
    room, while the member-joined packets and the snapshot are sent again. *)
Theorem join_again_is_join (now now' : Z) (c r : string) (h : Hub) :
  handleNoteJoin now' c r (handleNoteJoin now c r h).1
  = handleNoteJoin now' c r h.
Proof.
  destruct (connectedUsers h !! c) as [u|] eqn:Hu.
  - set (u1 := set_lastActivity now (set_noteId (Some r) u)).
    assert (connectedUsers (handleNoteJoin now c r h).1 !! c = Some u1) as Hu1.
    { rewrite (handleNoteJoin_users _ _ _ _ u) by done.
      apply lookup_insert_eq. }
    assert ((handleNoteJoin now' c r (handleNoteJoin now c r h).1).1
            = (handleNoteJoin now' c r h).1) as Hstate.
    { rewrite (handleNoteJoin_state now' _ _ _ u1) by done.
      rewrite (handleNoteJoin_state now' _ _ h u) by done.
      rewrite (handleNoteJoin_members _ _ _ _ u) by done.
      rewrite decide_True by done.
      rewrite (handleNoteJoin_state now _ _ h u) by done.
      cbn [connectedUsers noteRooms ioRooms].
      rewrite !insert_insert_eq. unfold SocketIO.join.
      rewrite lookup_insert_eq, insert_insert_eq. simpl.
      by rewrite !Set_add_idemp. }
    apply injective_projections; [done|].
    rewrite (handleNoteJoin_packets now' _ _ _ u1) by done.
    rewrite (handleNoteJoin_packets now' _ _ h u) by done.
    rewrite Hstate. rewrite (ioRooms_join _ _ _ _ u) by done.
    by rewrite audience_join.
  - by rewrite (handleNoteJoin_unknown now) by done.
Qed.

(** X8: join then leave.  When a connection with a record joins a room it
    was in neither by the room table nor by the transport, and then leaves it,
    every member set and every transport room is what it was before the join,
    and the connection's current-room field is unset. *)
Theorem join_then_leave_restores (now : Z) (c r : string) (h : Hub)
    (u : ConnectedUser) :
  connectedUsers h !! c = Some u →
  c ∉ members h r →
  c ∉ listeners h r →
  (∀ r', members (handleNoteLeave c r (handleNoteJoin now c r h).1).1 r'
         = members h r')
  ∧ (∀ r', listeners (handleNoteLeave c r (handleNoteJoin now c r h).1).1 r'
           = listeners h r')
  ∧ noteId <$> connectedUsers
                 (handleNoteLeave c r (handleNoteJoin now c r h).1).1 !! c
    = Some None.
Proof.
  intros Hu Hm Hl.
  set (u1 := set_lastActivity now (set_noteId (Some r) u)).
  assert (connectedUsers (handleNoteJoin now c r h).1 !! c = Some u1) as Hu1.
  { rewrite (handleNoteJoin_users _ _ _ _ u) by done. apply lookup_insert_eq. }
  split_and!.
  - intros r'. rewrite (members_leave _ _ _ u1) by done.
    rewrite !(handleNoteJoin_members _ _ _ _ u) by done.
    destruct (decide (r = r')) as [<-|Hd]; [|done].
    rewrite decide_True by done.
    rewrite Set_delete_add. by apply Set_delete_absent.
  - intros r'. rewrite (listeners_leave _ _ _ u1) by done.
    rewrite !(listeners_join _ _ _ _ u) by done.
    destruct (decide (r = r')) as [<-|Hd]; [|done].
    rewrite decide_True by done.
    rewrite Set_delete_add. by apply Set_delete_absent.
  - rewrite (handleNoteLeave_users _ _ _ u1) by done.
    by rewrite lookup_insert_eq.
Qed.

Lemma join_then_leave_restores_witness :
  members (handleNoteLeave "C" "doc1"
             (handleNoteJoin 9 "C" "doc1" (run initial Runs.pair_and_guest).1).1).1
    "doc1"
  = ["A"; "B"].
Proof.
  destruct (join_then_leave_restores 9 "C" "doc1"
              (run initial Runs.pair_and_guest).1
              (mkUser "C" "carol" "Carol" None "#45B7D1" 3)) as (Hm & _).
  - vm_compute. reflexivity.
  - apply (bool_decide_unpack _). vm_compute. exact I.
  - apply (bool_decide_unpack _). vm_compute. exact I.
  - rewrite Hm. vm_compute. reflexivity.
Defined.

(** X9: a connection without a record is ignored.  Join, leave, the four
    relayed events, the activity ping and the disconnect handler leave the
    whole hub unchanged and send no packet when the connection has no record
    in the connection table. *)
Theorem events_before_authentication_are_ignored (h : Hub) (sid : string) :
  connectedUsers h !! sid = None →
  (∀ now nid, handleNoteJoin now sid nid h = (h, []))
  ∧ (∀ nid, handleNoteLeave sid nid h = (h, []))
  ∧ (∀ k now data, relay k now sid data h = (h, []))
  ∧ (∀ now, handleUserActivity now sid h = (h, []))
  ∧ handleDisconnect sid h = (h, []).
Proof.
  intros Hn. split_and!.
  - intros. by apply handleNoteJoin_unknown.
  - intros. by apply handleNoteLeave_unknown.
  - intros. by apply relay_unknown.
  - intros. unfold handleUserActivity. by rewrite Hn.
  - by apply handleDisconnect_unknown.
Qed.

Lemma events_before_authentication_are_ignored_witness :
  handleNoteJoin 5 "Z" "doc1" (run initial Runs.pair).1
  = ((run initial Runs.pair).1, []).
Proof.
  destruct (events_before_authentication_are_ignored (run initial Runs.pair).1
              "Z") as (H & _).
  - vm_compute. reflexivity.
  - apply H.
Defined.

(** ** Records of the connection table *)

Section records.
Implicit Types (h : Hub) (sid : string) (u : ConnectedUser).

Lemma assignUserColor_palette (k : nat) :
  (k < length userColors)%nat → assignUserColor k ∈ userColors.
Proof.
  intros Hk. unfold assignUserColor.
  destruct (lookup_lt_is_Some_2 userColors k Hk) as [c Hc].
  rewrite Hc. simpl. by eapply list_elem_of_lookup_2.
Qed.

(** Rewriting the record of a connection with one of the same identity. *)
Lemma retouched_record (users : gmap string ConnectedUser) sid0 u0 u0' sid u' :
  users !! sid0 = Some u0 →
  identity u0' = identity u0 → socketId u0' = socketId u0 →
  <[sid0 := u0']> users !! sid = Some u' →
  ∃ u, users !! sid = Some u ∧ identity u' = identity u
       ∧ socketId u' = socketId u.
Proof.
  intros Hu0 Hid Hsock. destruct (decide (sid0 = sid)) as [->|Hne].
  - rewrite lookup_insert_eq. intros [= <-]. by exists u0.
  - rewrite lookup_insert_ne by done. intros Hu. by exists u'.
Qed.

(** One inbound event other than an [authenticate] of [sid] neither creates
    a record for [sid] nor changes the identity of the one it has. *)
Lemma step_record h op sid u' :
  authenticates sid op = false →
  connectedUsers (step h op).1 !! sid = Some u' →
  ∃ u, connectedUsers h !! sid = Some u ∧ identity u' = identity u
       ∧ socketId u' = socketId u.
Proof.
  intros Ha.
  destruct op as [sid0 uid uname k now | sid0 nid now | sid0 nid
                 | sid0 data now | sid0 data | sid0 data | sid0 data
                 | sid0 now | sid0 | now timeoutMs]; cbn [step].
  - cbn in Ha. apply bool_decide_eq_false in Ha.
    unfold handleAuthentication. cbn [fst connectedUsers].
    rewrite lookup_insert_ne by done. intros Hu. by exists u'.
  - destruct (connectedUsers h !! sid0) as [u0|] eqn:Hu0.
    + rewrite (handleNoteJoin_users _ _ _ _ u0) by done.
      by apply (retouched_record _ sid0 u0).
    + rewrite handleNoteJoin_unknown by done. intros Hu. by exists u'.
  - destruct (connectedUsers h !! sid0) as [u0|] eqn:Hu0.
    + rewrite (handleNoteLeave_users _ _ _ u0) by done.
      by apply (retouched_record _ sid0 u0).
    + rewrite handleNoteLeave_unknown by done. intros Hu. by exists u'.
  - change (handleNoteUpdate now sid0 data h)
      with (relay KUpdate now sid0 data h).
    destruct (connectedUsers h !! sid0) as [u0|] eqn:Hu0.
    + rewrite (relay_state _ _ _ _ _ u0) by done. by apply (retouched_record _ sid0 u0).
    + rewrite relay_unknown by done. intros Hu. by exists u'.
  - unfold handleCursorUpdate. intros Hu. exists u'.
    by destruct (connectedUsers h !! sid0).
  - unfold handleSelectionUpdate. intros Hu. exists u'.
    by destruct (connectedUsers h !! sid0).
  - unfold handleTypingIndicator. intros Hu. exists u'.
    by destruct (connectedUsers h !! sid0).
  - unfold handleUserActivity.
    destruct (connectedUsers h !! sid0) as [u0|] eqn:Hu0.
    + cbn [fst connectedUsers]. by apply (retouched_record _ sid0 u0).
    + intros Hu. by exists u'.
  - rewrite users_on_disconnect, lookup_delete_Some. intros [_ Hu].
    by exists u'.
  - cbn [fst]. unfold cleanupInactiveConnections. intros Hu.
    apply sweep_lookup_Some in Hu. by exists u'.
Qed.
End records.

(** X10: authentication.  For every colour index below the palette's
    length, authenticating replies to the authenticating socket alone, with a
    colour of the ten-colour palette, and stores under the socket identifier
    a record with that colour, the given userId and userName, the given time
    and no current room; the records of the other connections and all member
    sets are unchanged, so a connection that authenticates again while in a
    room stays in the room's member set with its current-room field unset. *)
Theorem authentication_registers (h : Hub) (now : Z) (k : nat)
    (sid uid uname : string) :
  (k < length userColors)%nat →
  ∃ c, c ∈ userColors
    ∧ (handleAuthentication now k sid uid uname h).2 = [(sid, Authenticated c)]
    ∧ connectedUsers (handleAuthentication now k sid uid uname h).1 !! sid
      = Some (mkUser sid uid uname None c now)
    ∧ (∀ sid', sid' ≠ sid →
         connectedUsers (handleAuthentication now k sid uid uname h).1 !! sid'
         = connectedUsers h !! sid')
    ∧ (∀ nid, members (handleAuthentication now k sid uid uname h).1 nid
              = members h nid)
    ∧ (∀ nid, listeners (handleAuthentication now k sid uid uname h).1 nid
              = listeners h nid).
Proof.
  intros Hk. exists (assignUserColor k). split_and!.
  - by apply assignUserColor_palette.
  - done.
  - apply lookup_insert_eq.
  - intros sid' Hne. cbn. by rewrite lookup_insert_ne.
  - done.
  - done.
Qed.

Lemma authentication_registers_witness :
  ∃ c, c ∈ userColors
    ∧ (handleAuthentication 7 3 "A" "eve" "Eve" (run initial Runs.pair).1).2
      = [("A", Authenticated c)]
    ∧ members (handleAuthentication 7 3 "A" "eve" "Eve" (run initial Runs.pair).1).1
        "doc1" = ["A"; "B"].
Proof.
  destruct (authentication_registers (run initial Runs.pair).1 7 3 "A" "eve" "Eve")
    as (c & Hc & Hout & _ & _ & Hm & _).
  - vm_compute. lia.
  - exists c. split_and!; [exact Hc | exact Hout |].
    rewrite Hm. vm_compute. reflexivity.
Defined.

(** X11: identity is stable.  Over any run that holds no [authenticate] of a
    connection, a record of that connection found after the run was there
    before the run, with the same socket identifier, userId, userName and
    colour: no other event creates a record or changes an identity. *)
Theorem identity_is_stable (ops : list Op) (h : Hub) (sid : string)
    (u' : ConnectedUser) :
  keeps_identity sid ops = true →
  connectedUsers (run h ops).1 !! sid = Some u' →
  ∃ u, connectedUsers h !! sid = Some u
       ∧ userId u' = userId u ∧ userName u' = userName u
       ∧ color u' = color u ∧ socketId u' = socketId u.
Proof.
  revert h u'. induction ops as [|op ops IH]; intros h u' Hk Hu'.
  - exists u'. by cbn in Hu'.
  - cbn [keeps_identity forallb] in Hk. apply andb_true_iff in Hk as [Hop Hk].
    apply negb_true_iff in Hop. rewrite run_cons_state in Hu'.
    destruct (IH _ _ Hk Hu') as (u1 & Hu1 & Hid1 & Hn1 & Hc1 & Hs1).
    destruct (step_record h op sid u1 Hop Hu1) as (u & Hu & Hid & Hs).
    exists u. unfold identity in Hid. injection Hid as Hi Hn Hc.
    split_and!; congruence.
Qed.

Lemma identity_is_stable_witness :
  ∃ u, connectedUsers (run initial Runs.pair).1 !! "B" = Some u
       ∧ userId u = "bob" ∧ color u = "#4ECDC4".
Proof.
  destruct (identity_is_stable
              [ OpNoteCursor "A" Scenario.typing_doc1; OpNoteLeave "B" "doc1";
                OpNoteJoin "B" "doc2" 8; OpUserActive "B" 9 ]
              (run initial Runs.pair).1 "B"
              (mkUser "B" "bob" "Bob" (Some "doc2") "#4ECDC4" 9))
    as (u & Hu & Hid & _ & Hc & _).
  - reflexivity.
  - vm_compute. reflexivity.
  - exists u. split_and!; [exact Hu | by rewrite <- Hid | by rewrite <- Hc].
Defined.

(** X12: records are well formed.  In every state reached from the empty hub
    by a run whose colour indices are below the palette's length, the record
    stored under a socket identifier carries that identifier, and its colour
    is one of the palette. *)
Theorem records_are_well_formed (ops : list Op) (sid : string)
    (u : ConnectedUser) :
  forallb palette_index ops = true →
  connectedUsers (run initial ops).1 !! sid = Some u →
  socketId u = sid ∧ color u ∈ userColors.
Proof.
  assert (∀ ops h,
            (∀ sid u, connectedUsers h !! sid = Some u →
                      socketId u = sid ∧ color u ∈ userColors) →
            forallb palette_index ops = true →
            ∀ sid u, connectedUsers (run h ops).1 !! sid = Some u →
                     socketId u = sid ∧ color u ∈ userColors) as Hgen.
  { clear. induction ops as [|op ops IH]; intros h Hwf Hp; [done|].
    cbn [forallb] in Hp. apply andb_true_iff in Hp as [Hop Hp].
    intros sid u. rewrite run_cons_state. apply IH; [|done].
    clear sid u. intros sid u Hu.
    destruct (authenticates sid op) eqn:Ha.
    - destruct op; try discriminate. cbn in Ha, Hop, Hu.
      apply bool_decide_eq_true in Ha, Hop. subst.
      rewrite lookup_insert_eq in Hu. injection Hu as <-. cbn.
      split; [done|]. by apply assignUserColor_palette.
    - destruct (step_record h op sid u Ha Hu) as (u0 & Hu0 & Hid & Hs).
      destruct (Hwf sid u0 Hu0) as [Hs0 Hc0].
      unfold identity in Hid. injection Hid as _ _ Hc.
      split; congruence. }
  intros Hp. apply Hgen; [|done]. intros sid' u' Hu'.
  unfold initial in Hu'. cbn [connectedUsers] in Hu'.
  by rewrite lookup_empty in Hu'.
Qed.

Lemma records_are_well_formed_witness :
  socketId (mkUser "B" "bob" "Bob" (Some "doc1") "#4ECDC4" 7) = "B"
  ∧ "#4ECDC4" ∈ userColors.
Proof.
  apply (records_are_well_formed Runs.session "B"
           (mkUser "B" "bob" "Bob" (Some "doc1") "#4ECDC4" 7)).
  - vm_compute. reflexivity.
  - vm_compute. reflexivity.
Defined.

(** ** The sweep, as a whole *)

Section whole_sweep.
Variables now timeoutMs : Z.
Implicit Types (h : Hub) (l : list (string * ConnectedUser)).

(** A socket stays in a room over the loop unless one of the entries is its
    own idle record with that room, of non-empty identifier, as current
    room. *)
Lemma sweep_keeps_member l h nid x :
  x ∈ members h nid →
  (∀ u, (x, u) ∈ l →
        ¬ (idle now timeoutMs u ∧ noteId u = Some nid ∧ nid ≠ "")) →
  x ∈ members (foldl (cleanup_entry now timeoutMs) h l) nid.
Proof.
  revert h. induction l as [|[sid u] l IH]; intros h Hin Hl; [done|].
  cbn [foldl]. apply IH.
  - unfold members. rewrite cleanup_entry_rooms.
    case_bool_decide as Hi; [|done].
    destruct (noteId u) as [r|] eqn:Hr; [|done]. simpl.
    case_bool_decide as He; [done|]. simpl.
    rewrite members_alter_delete. case_decide as Hd; [|done].
    rewrite elem_of_Set_delete. split; [|by rewrite Hd]. intros ->.
    apply (Hl u); [apply list_elem_of_here|]. subst r. by rewrite Hr.
  - intros u' Hu'. apply Hl. by apply list_elem_of_further.
Qed.

Lemma sweep_no_idle l h :
  (∀ e, e ∈ l → ¬ idle now timeoutMs e.2) →
  foldl (cleanup_entry now timeoutMs) h l = h.
Proof.
  revert h. induction l as [|[sid u] l IH]; intros h Hl; [done|].
  cbn [foldl]. unfold cleanup_entry at 2.
  rewrite bool_decide_eq_false_2.
  - apply IH. intros e He. apply Hl. by apply list_elem_of_further.
  - apply (Hl (sid, u)). apply list_elem_of_here.
Qed.

Lemma cleanup_users h :
  connectedUsers (cleanupInactiveConnections now timeoutMs h)
  = filter (λ e, ¬ idle now timeoutMs e.2) (connectedUsers h).
Proof.
  apply map_eq. intros sid. unfold cleanupInactiveConnections.
  destruct (connectedUsers h !! sid) as [u|] eqn:Hu.
  - assert ((sid, u) ∈ map_to_list (connectedUsers h)) as Hin
      by by apply elem_of_map_to_list.
    destruct (decide (idle now timeoutMs u)) as [Hi|Hi].
    + rewrite (sweep_removes now timeoutMs _ _ sid u) by done.
      symmetry. apply map_lookup_filter_None. right. intros u' Hu'.
      assert (u' = u) as -> by congruence. simpl. tauto.
    + rewrite sweep_spares.
      * rewrite Hu. symmetry. by apply map_lookup_filter_Some.
      * intros u' Hu'. apply elem_of_map_to_list in Hu'.
        assert (u' = u) as -> by congruence. done.
  - rewrite sweep_absent by done. symmetry.
    apply map_lookup_filter_None. by left.
Qed.

Lemma cleanup_lookup h sid u :
  connectedUsers h !! sid = Some u →
  connectedUsers (cleanupInactiveConnections now timeoutMs h) !! sid
  = if decide (idle now timeoutMs u) then None else Some u.
Proof.
  intros Hu. rewrite cleanup_users. case_decide as Hi.
  - apply map_lookup_filter_None. right. intros u' Hu'.
    assert (u' = u) as -> by congruence. simpl. tauto.
  - by apply map_lookup_filter_Some.
Qed.
End whole_sweep.

(** X13: what the sweep keeps.  After an idle sweep the connection table
    holds exactly the records whose last-activity age does not exceed the
    threshold, unchanged; a socket is in a member set after the sweep exactly
    when it was in it before and was not removed as an idle connection whose
    current room is this room, with a non-empty identifier; the count of
    connections does not grow. *)
Theorem sweep_keeps_exactly_the_active (h : Hub) (now timeoutMs : Z) :
  connectedUsers (cleanupInactiveConnections now timeoutMs h)
  = filter (λ e, ¬ idle now timeoutMs e.2) (connectedUsers h)
  ∧ (∀ nid x,
       x ∈ members (cleanupInactiveConnections now timeoutMs h) nid
       ↔ x ∈ members h nid
         ∧ ¬ ∃ u, connectedUsers h !! x = Some u ∧ idle now timeoutMs u
                  ∧ noteId u = Some nid ∧ nid ≠ "")
  ∧ (getConnectedUsersCount (cleanupInactiveConnections now timeoutMs h)
     ≤ getConnectedUsersCount h)%nat.
Proof.
  split_and!.
  - apply cleanup_users.
  - intros nid x. unfold cleanupInactiveConnections. split.
    + intros Hin. split; [by apply sweep_members in Hin|].
      intros (u & Hu & Hi & Hr & Hne). revert Hin.
      apply (sweep_leaves_room now timeoutMs _ _ x u); [|done..].
      by apply elem_of_map_to_list.
    + intros [Hin Hkeep]. apply sweep_keeps_member; [done|].
      intros u Hu Hbad. apply Hkeep. exists u.
      apply elem_of_map_to_list in Hu. tauto.
  - unfold getConnectedUsersCount. rewrite cleanup_users.
    apply map_size_filter.
Qed.

(** X14: the sweep settles.  A sweep changes nothing in a hub none of whose
    connections is idle, and a second sweep with the same clock and threshold
    changes nothing after the first. *)
Theorem sweep_settles (h : Hub) (now timeoutMs : Z) :
  (map_Forall (λ _ u, ¬ idle now timeoutMs u) (connectedUsers h) →
   cleanupInactiveConnections now timeoutMs h = h)
  ∧ cleanupInactiveConnections now timeoutMs
      (cleanupInactiveConnections now timeoutMs h)
    = cleanupInactiveConnections now timeoutMs h.
Proof.
  assert (∀ h', map_Forall (λ _ u, ¬ idle now timeoutMs u) (connectedUsers h') →
                cleanupInactiveConnections now timeoutMs h' = h') as Hid.
  { intros h' Hfresh. unfold cleanupInactiveConnections.
    apply sweep_no_idle. intros [sid u] He.
    apply elem_of_map_to_list in He. by apply (Hfresh sid u). }
  split; [apply Hid|]. apply Hid. intros sid u.
  rewrite cleanup_users. rewrite map_lookup_filter_Some. by intros [_ Hi].
Qed.

Lemma sweep_settles_witness :
  cleanupInactiveConnections 10 500 (run initial Runs.pair).1
  = (run initial Runs.pair).1.
Proof.
  destruct (sweep_settles (run initial Runs.pair).1 10 500) as [H _].
  apply H. apply (bool_decide_unpack _). vm_compute. exact I.
Defined.

(** X15: what counts as activity.  A join, a content update or an activity
    ping at time t protects the connection from every sweep whose clock is
    at most the threshold past t.  A cursor, selection or typing event, and a
    leave, do not refresh the last-activity stamp: a connection that was idle
    before such an event is removed by the sweep after it. *)
Theorem what_counts_as_activity (h : Hub) (sid : string) (u : ConnectedUser)
    (t now timeoutMs : Z) :
  connectedUsers h !! sid = Some u →
  (now - t ≤ timeoutMs →
     (∀ nid, is_Some (connectedUsers
                (cleanupInactiveConnections now timeoutMs
                   (handleNoteJoin t sid nid h).1) !! sid))
     ∧ (∀ data, is_Some (connectedUsers
                  (cleanupInactiveConnections now timeoutMs
                     (handleNoteUpdate t sid data h).1) !! sid))
     ∧ is_Some (connectedUsers
                  (cleanupInactiveConnections now timeoutMs
                     (handleUserActivity t sid h).1) !! sid))
  ∧ (idle now timeoutMs u →
     (∀ k data, k ≠ KUpdate →
        connectedUsers
          (cleanupInactiveConnections now timeoutMs
             (relay k t sid data h).1) !! sid = None)
     ∧ (∀ nid, connectedUsers
                 (cleanupInactiveConnections now timeoutMs
                    (handleNoteLeave sid nid h).1) !! sid = None)).
Proof.
  intros Hu. split.
  - intros Hfresh.
    assert (∀ u', lastActivity u' = t → ¬ idle now timeoutMs u') as Hnot.
    { intros u' Ht. unfold idle. rewrite Ht. lia. }
    split_and!.
    + intros nid.
      rewrite (cleanup_lookup _ _ _ sid
                 (set_lastActivity t (set_noteId (Some nid) u))).
      * rewrite decide_False; [eauto|]. by apply Hnot.
      * rewrite (handleNoteJoin_users _ _ _ _ u) by done.
        apply lookup_insert_eq.
    + intros data.
      rewrite (cleanup_lookup _ _ _ sid (set_lastActivity t u)).
      * rewrite decide_False; [eauto|]. by apply Hnot.
      * unfold handleNoteUpdate. rewrite Hu. apply lookup_insert_eq.
    + rewrite (cleanup_lookup _ _ _ sid (set_lastActivity t u)).
      * rewrite decide_False; [eauto|]. by apply Hnot.
      * unfold handleUserActivity. rewrite Hu. apply lookup_insert_eq.
  - intros Hidle. split.
    + intros k data Hk. rewrite (cleanup_lookup _ _ _ sid u).
      * by rewrite decide_True.
      * rewrite (relay_state _ _ _ _ _ u) by done. cbn [connectedUsers].
        rewrite lookup_insert_eq. by destruct k, u.
    + intros nid. rewrite (cleanup_lookup _ _ _ sid (set_noteId None u)).
      * by rewrite decide_True.
      * rewrite (handleNoteLeave_users _ _ _ u) by done.
        apply lookup_insert_eq.
Qed.

Lemma what_counts_as_activity_witness :
  is_Some (connectedUsers
             (cleanupInactiveConnections 1000 500
                (handleUserActivity 800 "A" (run initial Runs.pair).1).1) !! "A")
  ∧ connectedUsers
      (cleanupInactiveConnections 1000 500
         (relay KCursor 800 "A" Scenario.typing_doc1 (run initial Runs.pair).1).1)
      !! "A" = None.
Proof.
  destruct (what_counts_as_activity (run initial Runs.pair).1 "A"
              (mkUser "A" "alice" "Alice" (Some "doc1") "#FF6B6B" 1)
              800 1000 500) as [Hkeep Hdrop].
  - vm_compute. reflexivity.
  - split.
    + apply Hkeep. lia.
    + apply Hdrop; [unfold idle; simpl; lia | discriminate].
Defined.

(** X16: the connection count.  The count of connected users counts
    connections: an authentication raises it by one when the socket has no
    record, whatever the userId, and leaves it as it is when the socket has
    one; a disconnect lowers it by one when the socket has a record and leaves
    it as it is otherwise; join, leave, the relayed events and the activity
    ping never change it. *)
Theorem connection_count (h : Hub) :
  (∀ now k sid uid uname,
     getConnectedUsersCount (handleAuthentication now k sid uid uname h).1
     = match connectedUsers h !! sid with
       | Some _ => getConnectedUsersCount h
       | None => S (getConnectedUsersCount h)
       end)
  ∧ (∀ sid,
       getConnectedUsersCount h
       = match connectedUsers h !! sid with
         | Some _ => S (getConnectedUsersCount (on_disconnect sid h).1)
         | None => getConnectedUsersCount (on_disconnect sid h).1
         end)
  ∧ (∀ op,
       match op with
       | OpAuthenticate _ _ _ _ _ | OpDisconnect _ | OpCleanup _ _ => True
       | _ => getConnectedUsersCount (step h op).1 = getConnectedUsersCount h
       end).
Proof.
  unfold getConnectedUsersCount. split_and!.
  - intros. cbn. rewrite map_size_insert.
    by destruct (connectedUsers h !! sid).
  - intros sid. rewrite users_on_disconnect.
    destruct (connectedUsers h !! sid) as [u|] eqn:Hu.
    + rewrite <- (insert_delete_id (connectedUsers h) sid u) at 1 by done.
      apply map_size_insert_None, lookup_delete_eq.
    + by rewrite delete_id.
  - intros op.
    destruct op as [sid0 uid uname k now | sid0 nid now | sid0 nid
                   | sid0 data now | sid0 data | sid0 data | sid0 data
                   | sid0 now | sid0 | now timeoutMs]; try done; cbn [step];
      destruct (connectedUsers h !! sid0) as [u0|] eqn:Hu0.
    + rewrite (handleNoteJoin_users _ _ _ _ u0) by done.
      by apply map_size_insert_Some.
    + by rewrite handleNoteJoin_unknown.
    + rewrite (handleNoteLeave_users _ _ _ u0) by done.
      by apply map_size_insert_Some.
    + by rewrite handleNoteLeave_unknown.
    + unfold handleNoteUpdate. rewrite Hu0. by apply map_size_insert_Some.
    + unfold handleNoteUpdate. by rewrite Hu0.
    + unfold handleCursorUpdate. by rewrite Hu0.
    + unfold handleCursorUpdate. by rewrite Hu0.
    + unfold handleSelectionUpdate. by rewrite Hu0.
    + unfold handleSelectionUpdate. by rewrite Hu0.
    + unfold handleTypingIndicator. by rewrite Hu0.
    + unfold handleTypingIndicator. by rewrite Hu0.
    + unfold handleUserActivity. rewrite Hu0. by apply map_size_insert_Some.
    + unfold handleUserActivity. by rewrite Hu0.
Qed.

(** ** Sends started by the service *)

Section service_sends.
Context {E : Type}.
Implicit Types (h : Hub) (ev : E).

Lemma sendToUser_loop uid ev (l : list (string * ConnectedUser))
    (acc : list (string * E)) :
  foldl (λ out entry,
           if decide (userId entry.2 = uid)
           then out ++ [(entry.1, ev)] else out) acc l
  = acc ++ ((λ e, (e.1, ev)) <$> filter (λ e, userId e.2 = uid) l).
Proof.
  revert acc. induction l as [|e l IH]; intros acc; cbn [foldl].
  - by rewrite app_nil_r.
  - rewrite IH. case_decide as Hd.
    + rewrite filter_cons_True by done. csimpl. by rewrite <- app_assoc.
    + by rewrite filter_cons_False.
Qed.

Lemma sendToUser_list uid ev h :
  sendToUser true uid ev h
  = (λ e, (e.1, ev))
    <$> filter (λ e, userId e.2 = uid) (map_to_list (connectedUsers h)).
Proof. unfold sendToUser. by rewrite sendToUser_loop. Qed.
End service_sends.

(** X17: sending to a user.  Once the server is initialised, [sendToUser]
    sends the event to exactly the sockets whose record carries the given
    userId, one packet to each, so to every connection of a user who is
    connected several times and to nobody when the user has no connection;
    before initialisation it sends nothing. *)
Theorem sendToUser_reaches_every_connection {E : Type} (uid : string) (ev : E)
    (h : Hub) :
  (∀ p, p ∈ sendToUser true uid ev h
        ↔ p.2 = ev ∧ ∃ u, connectedUsers h !! p.1 = Some u ∧ userId u = uid)
  ∧ NoDup (sendToUser true uid ev h).*1
  ∧ ((∀ sid u, connectedUsers h !! sid = Some u → userId u ≠ uid) →
     sendToUser true uid ev h = [])
  ∧ sendToUser false uid ev h = [].
Proof.
  assert (∀ p, p ∈ sendToUser true uid ev h
        ↔ p.2 = ev ∧ ∃ u, connectedUsers h !! p.1 = Some u ∧ userId u = uid)
    as Hiff.
  { intros [sid ev']. rewrite sendToUser_list, list_elem_of_fmap. split.
    - intros ([sid' u] & [= -> ->] & Hin).
      apply list_elem_of_filter in Hin as [Huid Hin].
      apply elem_of_map_to_list in Hin. split; [done|]. by exists u.
    - intros [Hev (u & Hu & Huid)]. cbn in *. subst ev'.
      exists (sid, u). split; [done|]. apply list_elem_of_filter.
      split; [done|]. by apply elem_of_map_to_list. }
  split_and!.
  - exact Hiff.
  - rewrite sendToUser_list, <- list_fmap_compose.
    apply (NoDup_fmap_fst
             (filter (λ e, userId e.2 = uid) (map_to_list (connectedUsers h)))).
    + intros sid u1 u2 [_ H1]%list_elem_of_filter [_ H2]%list_elem_of_filter.
      apply elem_of_map_to_list in H1, H2. congruence.
    + apply NoDup_filter, NoDup_map_to_list.
  - intros Hnone. destruct (sendToUser true uid ev h) as [|p out] eqn:Hout;
      [done|].
    assert (p ∈ p :: out) as Hp by apply list_elem_of_here.
    apply Hiff in Hp as [_ (u & Hu & Huid)]. by destruct (Hnone _ _ Hu).
  - done.
Qed.

Lemma sendToUser_reaches_every_connection_witness :
  sendToUser true "zoe" 1%nat (run initial Runs.two_devices).1 = []
  ∧ ("A", 1%nat) ∈ sendToUser true "alice" 1%nat (run initial Runs.two_devices).1
  ∧ ("A2", 1%nat) ∈ sendToUser true "alice" 1%nat (run initial Runs.two_devices).1.
Proof.
  destruct (sendToUser_reaches_every_connection "zoe" 1%nat
              (run initial Runs.two_devices).1) as (_ & _ & H & _).
  destruct (sendToUser_reaches_every_connection "alice" 1%nat
              (run initial Runs.two_devices).1) as (Hiff & _).
  split_and!.
  - apply H. intros sid u Hu.
    assert (map_Forall (λ _ u, userId u ≠ "zoe")
              (connectedUsers (run initial Runs.two_devices).1)) as Hall.
    { apply (bool_decide_unpack _). vm_compute. exact I. }
    by apply (Hall sid u).
  - apply Hiff. split; [reflexivity|].
    exists (mkUser "A" "alice" "Alice" (Some "doc1") "#FF6B6B" 1).
    split; [vm_compute; reflexivity | reflexivity].
  - apply Hiff. split; [reflexivity|].
    exists (mkUser "A2" "alice" "Alice" None "#FFA07A" 5).
    split; [vm_compute; reflexivity | reflexivity].
Defined.

Lemma broadcastToNote_recipients {E : Type} (nid : string) (ev : E) (h : Hub) :
  (broadcastToNote true nid ev h).*1 = listeners h nid.
Proof.
  unfold broadcastToNote, listeners. rewrite <- list_fmap_compose.
  apply list_fmap_id.
Qed.

(** X18: broadcasting to a note.  In a state reached by a well-sequenced
    run, once the server is initialised, [broadcastToNote] delivers the event
    exactly once to every member of the note's room, no member excepted;
    before initialisation it sends nothing. *)
Theorem broadcastToNote_reaches_each_member_once (ops : list Op)
    (nid m : string) (ev : Event) :
  well_sequenced_run initial ops = true →
  m ∈ members (run initial ops).1 nid →
  received m (broadcastToNote true nid ev (run initial ops).1) = [ev]
  ∧ broadcastToNote false nid ev (run initial ops).1 = [].
Proof.
  intros Hw Hin. split; [|done]. unfold broadcastToNote.
  apply received_exactly_once.
  - apply (duplicate_free_run ops initial duplicate_free_initial).
  - by apply (synced_run ops initial Hw consistent_initial synced_initial).
Qed.

Lemma broadcastToNote_reaches_each_member_once_witness :
  received "A"
    (broadcastToNote true "doc1" (Authenticated "x") (run initial Runs.pair).1)
  = [Authenticated "x"].
Proof.
  apply (broadcastToNote_reaches_each_member_once Runs.pair "doc1" "A"
           (Authenticated "x")).
  - vm_compute. reflexivity.
  - vm_compute. apply list_elem_of_here.
Defined.

(** X19: broadcasts follow join, leave and disconnect.  For a connection
    with a record, a broadcast to a note reaches it right after it joins the
    note and does not reach it right after it leaves the note; after its
    socket closes no broadcast to any note reaches it. *)
Theorem broadcastToNote_follows_membership {E : Type} (h : Hub) (now : Z)
    (sid nid : string) (ev : E) (u : ConnectedUser) :
  connectedUsers h !! sid = Some u →
  sid ∈ (broadcastToNote true nid ev (handleNoteJoin now sid nid h).1).*1
  ∧ (sid ∉ (broadcastToNote true nid ev (handleNoteLeave sid nid h).1).*1)
  ∧ (∀ nid', sid ∉ (broadcastToNote true nid' ev (on_disconnect sid h).1).*1).
Proof.
  intros Hu. split_and!.
  - rewrite broadcastToNote_recipients, (listeners_join _ _ _ _ u) by done.
    rewrite decide_True by done. apply elem_of_Set_add. by left.
  - rewrite broadcastToNote_recipients, (listeners_leave _ _ _ u) by done.
    rewrite decide_True by done. rewrite elem_of_Set_delete. tauto.
  - intros nid'. rewrite broadcastToNote_recipients, listeners_disconnect.
    rewrite elem_of_Set_delete. tauto.
Qed.

Lemma broadcastToNote_follows_membership_witness :
  "A" ∉ (broadcastToNote true "doc1" 0%nat
           (handleNoteLeave "A" "doc1" (run initial Runs.pair).1).1).*1.
Proof.
  destruct (broadcastToNote_follows_membership (run initial Runs.pair).1 0
              "A" "doc1" 0%nat
              (mkUser "A" "alice" "Alice" (Some "doc1") "#FF6B6B" 1))
    as (_ & H & _).
  - vm_compute. reflexivity.
  - exact H.
Defined.

(** ** The current room of a connection *)

Section current_room.
Implicit Types (h : Hub) (op : Op).

Lemma current_room_joined_step h op :
  current_room_joined h → current_room_joined (step h op).1.
Proof.
  intros Hj sid u nid.
  destruct op as [sid0 uid uname k now | sid0 nid0 now | sid0 nid0
                 | sid0 data now | sid0 data | sid0 data | sid0 data
                 | sid0 now | sid0 | now timeoutMs]; cbn [step].
  - unfold handleAuthentication. cbn [fst connectedUsers].
    destruct (decide (sid0 = sid)) as [->|Hne].
    + rewrite lookup_insert_eq. by intros [= <-].
    + rewrite lookup_insert_ne by done. apply Hj.
  - destruct (connectedUsers h !! sid0) as [u0|] eqn:Hu0;
      [|rewrite handleNoteJoin_unknown by done; apply Hj].
    rewrite (handleNoteJoin_users _ _ _ _ u0),
      (handleNoteJoin_members _ _ _ _ u0), (listeners_join _ _ _ _ u0) by done.
    destruct (decide (sid0 = sid)) as [->|Hne].
    + rewrite lookup_insert_eq. intros [= <-] [= <-].
      rewrite !decide_True by done. rewrite !elem_of_Set_add.
      split; by left.
    + rewrite lookup_insert_ne by done. intros Hu Hr.
      destruct (Hj sid u nid Hu Hr) as [Hm Hl].
      case_decide as Hd; [|done]. subst nid.
      rewrite !elem_of_Set_add. tauto.
  - destruct (connectedUsers h !! sid0) as [u0|] eqn:Hu0;
      [|rewrite handleNoteLeave_unknown by done; apply Hj].
    rewrite (handleNoteLeave_users _ _ _ u0),
      (members_leave _ _ _ u0), (listeners_leave _ _ _ u0) by done.
    destruct (decide (sid0 = sid)) as [->|Hne].
    + rewrite lookup_insert_eq. by intros [= <-].
    + rewrite lookup_insert_ne by done. intros Hu Hr.
      destruct (Hj sid u nid Hu Hr) as [Hm Hl].
      case_decide as Hd; [|done]. subst nid.
      rewrite !elem_of_Set_delete. split; (split; [congruence|done]).
  - change (handleNoteUpdate now sid0 data h)
      with (relay KUpdate now sid0 data h).
    destruct (connectedUsers h !! sid0) as [u0|] eqn:Hu0;
      [|rewrite relay_unknown by done; apply Hj].
    rewrite (relay_state _ _ _ _ _ u0) by done. cbn [connectedUsers].
    destruct (decide (sid0 = sid)) as [->|Hne].
    + rewrite lookup_insert_eq. intros [= <-]. apply (Hj sid u0 nid Hu0).
    + rewrite lookup_insert_ne by done. apply Hj.
  - unfold handleCursorUpdate. destruct (connectedUsers h !! sid0); apply Hj.
  - unfold handleSelectionUpdate. destruct (connectedUsers h !! sid0); apply Hj.
  - unfold handleTypingIndicator. destruct (connectedUsers h !! sid0); apply Hj.
  - unfold handleUserActivity.
    destruct (connectedUsers h !! sid0) as [u0|] eqn:Hu0; [|apply Hj].
    cbn [fst connectedUsers].
    destruct (decide (sid0 = sid)) as [->|Hne].
    + rewrite lookup_insert_eq. intros [= <-]. apply (Hj sid u0 nid Hu0).
    + rewrite lookup_insert_ne by done. apply Hj.
  - rewrite users_on_disconnect, lookup_delete_Some. intros [Hne Hu] Hr.
    destruct (Hj sid u nid Hu Hr) as [Hm Hl]. split.
    + rewrite members_disconnect.
      destruct (connectedUsers h !! sid0); [|done].
      destruct (_ && _); [|done]. rewrite elem_of_Set_delete.
      split; [congruence|done].
    + rewrite listeners_disconnect, elem_of_Set_delete.
      split; [congruence|done].
  - cbn [fst]. intros Hu Hr.
    assert (connectedUsers h !! sid = Some u) as Hu0
      by (by eapply sweep_lookup_Some).
    destruct (Hj sid u nid Hu0 Hr) as [Hm Hl]. split.
    + unfold cleanupInactiveConnections. apply sweep_keeps_member; [done|].
      intros u' Hu' (Hi & _). apply elem_of_map_to_list in Hu'.
      assert (u' = u) as -> by congruence.
      rewrite (cleanup_lookup _ _ _ sid u Hu0), decide_True in Hu by done.
      done.
    + unfold listeners, cleanupInactiveConnections.
      by rewrite sweep_ioRooms.
Qed.

Lemma current_room_joined_run ops h :
  current_room_joined h → current_room_joined (run h ops).1.
Proof.
  revert h. induction ops as [|op ops IH]; intros h Hj; [done|].
  rewrite run_cons_state. by apply IH, current_room_joined_step.
Qed.
End current_room.

(** X20: the current room is joined.  In every state reached from the empty
    hub by any run, a connection whose record names a current room is in that
    room's member set and in that room's transport room. *)
Theorem current_room_is_joined (ops : list Op) (sid nid : string)
    (u : ConnectedUser) :
  connectedUsers (run initial ops).1 !! sid = Some u →
  noteId u = Some nid →
  sid ∈ members (run initial ops).1 nid
  ∧ sid ∈ listeners (run initial ops).1 nid.
Proof.
  apply (current_room_joined_run ops initial). intros sid' u' nid' Hu'.
  unfold initial in Hu'. cbn [connectedUsers] in Hu'.
  by rewrite lookup_empty in Hu'.
Qed.

Lemma current_room_is_joined_witness :
  "A" ∈ members (run initial Traces.orderly).1 "doc2"
  ∧ "A" ∈ listeners (run initial Traces.orderly).1 "doc2".
Proof.
  apply (current_room_is_joined Traces.orderly "A" "doc2"
           (mkUser "A" "alice" "Alice" (Some "doc2") "#FF6B6B" 900)).
  - vm_compute. reflexivity.
  - reflexivity.
Defined.

(** X21: at most one room.  In every state reached from the empty hub by a
    well-sequenced run, a connection is a member of at most one room, and that
    room is the current room of its record. *)
Theorem at_most_one_room (ops : list Op) (sid nid1 nid2 : string) :
  well_sequenced_run initial ops = true →
  sid ∈ members (run initial ops).1 nid1 →
  sid ∈ members (run initial ops).1 nid2 →
  nid1 = nid2
  ∧ noteId <$> connectedUsers (run initial ops).1 !! sid = Some (Some nid1).
Proof.
  intros Hw H1 H2.
  pose proof (consistent_run ops initial Hw consistent_initial) as Hc.
  destruct (Hc nid1 sid H1) as (u1 & Hu1 & Hr1 & _).
  destruct (Hc nid2 sid H2) as (u2 & Hu2 & Hr2 & _).
  split; [congruence|]. by rewrite Hu1, <- Hr1.
Qed.

Lemma at_most_one_room_witness :
  noteId <$> connectedUsers (run initial Traces.orderly).1 !! "A"
  = Some (Some "doc2").
Proof.
  apply (at_most_one_room Traces.orderly "A" "doc2" "doc2").
  - vm_compute. reflexivity.
  - vm_compute. apply list_elem_of_here.
  - vm_compute. apply list_elem_of_here.
Defined.
